(** * SMuFL metadata extraction (fkretlow/sebastian, scripts/)

    A shallow embedding of the three Python modules that generate SMuFL
    metadata from a fontforge font:

    - [scripts/ffsmufl.py]            ([SmuflFont], [_SmuflMetadata]),
    - [scripts/ff_smufl_metadata.py]  ([SmuflMetadata], module functions),
    - [scripts/ff-smufl.py]           ([SmuflFont], [SmuflMetadata]).

    Python objects are modelled as follows.
    - [int] is [Z]; [float] is an exact rational [Q] (the rounding error of
      the binary division is not modelled; on integral design units
      [round(em/250, 3)] is the decimal [4 * em / 1000] in both readings).
    - [str] is [string]; a tuple or list is a [list].
    - [dict] is an insertion-ordered association list ([dict_set] overwrites
      in place and appends new keys at the end, as CPython does).
    - A raised exception is the [Raise] branch of [result]. *)

From Stdlib Require Import ZArith QArith Qround String Ascii List Bool Lia.
From Stdlib Require Import Lqa.
Import ListNotations.
Local Open Scope string_scope.
Local Open Scope Z_scope.

Set Implicit Arguments.
Set Warnings "-register-all".

(** ** Exceptions and the error monad *)

Inductive exn : Type :=
| BaseException
| LookupError
| KeyError
| IndexError
| ValueError
| NameError
| TypeError
| OSError
| PermissionError.

Definition exn_eqb (a b : exn) : bool :=
  match a, b with
  | BaseException, BaseException | LookupError, LookupError
  | KeyError, KeyError | IndexError, IndexError | ValueError, ValueError
  | NameError, NameError | TypeError, TypeError | OSError, OSError
  | PermissionError, PermissionError => true
  | _, _ => false
  end.

(** The direct base class in the built-in exception hierarchy
    ([Exception] and [BaseException] are merged into the root). *)
Definition base_class (e : exn) : option exn :=
  match e with
  | BaseException => None
  | KeyError | IndexError => Some LookupError
  | PermissionError => Some OSError
  | LookupError | ValueError | NameError | TypeError | OSError => Some BaseException
  end.

(** [issubclass e c]: the hierarchy has depth two below the root. *)
Definition issubclass (e c : exn) : bool :=
  exn_eqb e c
  || match base_class e with
     | None => false
     | Some b =>
         exn_eqb b c
         || match base_class b with
            | None => false
            | Some r => exn_eqb r c
            end
     end.

Inductive result (A : Type) : Type :=
| Ok (a : A)
| Raise (e : exn).

Arguments Ok {A} a.
Arguments Raise {A} e.

Definition bind {A B} (r : result A) (k : A -> result B) : result B :=
  match r with
  | Ok a => k a
  | Raise e => Raise e
  end.

Declare Scope py_scope.
Delimit Scope py_scope with py.
Notation "x <- r ;; k" := (bind r (fun x => k))
  (at level 61, r at next level, right associativity) : py_scope.
Local Open Scope py_scope.

(** A [for] loop whose body may raise: the state is threaded left to right
    and the first exception aborts the loop. *)
Fixpoint for_each {A S} (xs : list A) (body : S -> A -> result S) (s : S)
  : result S :=
  match xs with
  | [] => Ok s
  | x :: xs' => s' <- body s x ;; for_each xs' body s'
  end.

(** ** Dictionaries *)

Section Dict.
Variable V : Type.

Definition dict := list (string * V).

(** [d.get(k)]: [None] stands for a [KeyError] of [d[k]]. *)
Fixpoint dict_get (d : dict) (k : string) : option V :=
  match d with
  | [] => None
  | (k', v) :: d' => if String.eqb k' k then Some v else dict_get d' k
  end.

(** [d[k] = v] *)
Fixpoint dict_set (d : dict) (k : string) (v : V) : dict :=
  match d with
  | [] => [(k, v)]
  | (k', v') :: d' =>
      if String.eqb k' k then (k', v) :: d' else (k', v') :: dict_set d' k v
  end.

Definition dict_keys (d : dict) : list string := map fst d.

(** truth value of a dict: non-empty *)
Definition dict_bool (d : dict) : bool :=
  match d with [] => false | _ :: _ => true end.

End Dict.

Arguments dict_get {V} d k.
Arguments dict_set {V} d k v.
Arguments dict_keys {V} d.
Arguments dict_bool {V} d.

(** ** Python values that end up in the metadata document *)

Inductive value : Type :=
| VNone
| VBool (b : bool)
| VInt (z : Z)
| VFloat (q : Q)
| VStr (s : string)
| VTuple (l : list value)
| VList (l : list value)
| VDict (d : list (string * value)).

(** Truth-value testing. *)
Definition truthy (v : value) : bool :=
  match v with
  | VNone => false
  | VBool b => b
  | VInt z => negb (z =? 0)
  | VFloat q => negb (Qnum q =? 0)
  | VStr s => negb (String.eqb s "")
  | VTuple l | VList l => match l with [] => false | _ => true end
  | VDict d => dict_bool d
  end.

Definition is_empty_container (v : value) : bool :=
  match v with
  | VStr "" | VTuple [] | VList [] | VDict [] => true
  | _ => false
  end.

Definition isinstance_dict (v : value) : bool :=
  match v with VDict _ => true | _ => false end.

Definition is_None (v : value) : bool :=
  match v with VNone => true | _ => false end.

(** ** Built-ins: [hex], slicing, [str.upper], [round] *)

Definition hex_digit (n : Z) : ascii :=
  if n <? 10 then ascii_of_nat (Z.to_nat (48 + n))
  else ascii_of_nat (Z.to_nat (87 + n)).

(** Lower-case hexadecimal digits of [n >= 0], most significant first. *)
Fixpoint hex_digits_upto (fuel : nat) (n : Z) : string :=
  match fuel with
  | O => String (hex_digit n) ""
  | S fuel' =>
      if n <? 16 then String (hex_digit n) ""
      else hex_digits_upto fuel' (n / 16) ++ String (hex_digit (n mod 16)) ""
  end.

Definition hex_digits (n : Z) : string :=
  hex_digits_upto (Z.to_nat (Z.log2 n)) n.

(** [hex(n)]: sign, then ["0x"], then the digits. *)
Definition hex (n : Z) : string :=
  if n <? 0 then "-0x" ++ hex_digits (- n) else "0x" ++ hex_digits n.

(** [s[n:]] *)
Fixpoint slice_from (n : nat) (s : string) : string :=
  match n, s with
  | O, _ => s
  | S _, "" => ""
  | S n', String _ s' => slice_from n' s'
  end.

Definition ascii_upper (c : ascii) : ascii :=
  let n := nat_of_ascii c in
  if ((97 <=? n) && (n <=? 122))%nat then ascii_of_nat (n - 32) else c.

(** [s.upper()] on ASCII text. *)
Fixpoint upper (s : string) : string :=
  match s with
  | "" => ""
  | String c s' => String (ascii_upper c) (upper s')
  end.

(** Round to the nearest integer, ties to even. *)
Definition round_half_even (q : Q) : Z :=
  let f := Qfloor q in
  match Qcompare (q - inject_Z f) (1 # 2) with
  | Lt => f
  | Gt => f + 1
  | Eq => if Z.even f then f else f + 1
  end.

(** [round(x, ndigits)] *)
Definition py_round (x : Q) (ndigits : nat) : Q :=
  let scale := inject_Z (10 ^ Z.of_nat ndigits) in
  Qred (inject_Z (round_half_even (x * scale)) / scale).

(** ** The fontforge objects the scripts read *)

Module fontforge.

(** An entry of [glyph.anchorPoints]: [(name, type, x, y)]. *)
Record anchor : Type := {
  anchor_name : string;
  anchor_type : string;
  anchor_x : Q;
  anchor_y : Q
}.

(** An entry of [glyph.getPosSub('*')]: [(subtable, type, name, ...)].
    [lookup_glyphs] is the slice [table[2:]]; the scripts read it only for
    the types ['AltSubs'] and ['Ligature'], where it holds glyph names. *)
Record lookup : Type := {
  lookup_subtable : string;
  lookup_type : string;
  lookup_glyphs : list string
}.

Record glyph : Type := {
  unicode : Z;
  glyphname : string;
  anchorPoints : list anchor;
  boundingBox : Q * Q * Q * Q;
  getPosSub : list lookup
}.

Record font : Type := {
  fontname : string;
  version : string;
  glyphs : list glyph
}.

(** [font[name]]: the glyph of that name; fontforge raises [TypeError]
    when the font has none. *)
Definition getitem (f : font) (name : string) : result glyph :=
  match find (fun g => String.eqb (glyphname g) name) (glyphs f) with
  | Some g => Ok g
  | None => Raise TypeError
  end.

End fontforge.

Import fontforge.

(** Standard SMuFL characters are encoded from U+E000 to U+F3FF:
    the test [57344 <= char.unicode <= 62463]. *)
Definition in_smufl_range (char : glyph) : bool :=
  (57344 <=? unicode char) && (unicode char <=? 62463).

(** [x in t] for a tuple of strings *)
Definition in_tuple (x : string) (t : list string) : bool :=
  existsb (String.eqb x) t.

(** The 21 anchor names; the same tuple is [SmuflFont.valid_anchor_names]
    in ffsmufl.py and ff-smufl.py and [SMUFL_ANCHOR_NAMES] in
    ff_smufl_metadata.py. *)
Definition smufl_anchor_names : list string :=
  [ "stemUpSE"; "stemUpNW"; "stemDownNW"; "stemDownSW";
    "splitStemUpSE"; "splitStemUpSW"; "splitStemDownNE"; "splitStemDownNW";
    "cutOutNE"; "cutOutSE"; "cutOutSW"; "cutOutNW";
    "numeralTop"; "numeralBottom";
    "graceNoteSlashSW"; "graceNoteSlashNE"; "graceNoteSlashNW";
    "graceNoteSlashSE";
    "repeatOffset"; "noteheadOrigin"; "opticalCenter" ].

(** [round(i/250, 3)]: [em_to_spaces] in ffsmufl.py and ff-smufl.py,
    [to_spaces] in ff_smufl_metadata.py. *)
Definition round_div_250 (em : Q) : Q := py_round (em / inject_Z 250) 3.

(** ** The table-building methods

    The bodies of [anchors], [alternates], [bounding_boxes] and [ligatures]
    (ffsmufl.py, ff-smufl.py) and of the properties [glyphsWithAnchors],
    [glyphsWithAlternates], [glyphBBoxes] and [ligatures]
    (ff_smufl_metadata.py) are the same text up to the helpers they call.
    The helpers are the variables of this section; each module below
    supplies its own. *)

Section Tables.

Variable valid_anchor_names : list string.
Variable codepoint_of : glyph -> string.
Variable canonical_name : glyph -> result string.
Variable to_spaces : Q -> Q.

(** The inner loop over [char.anchorPoints]. *)
Definition char_anchors (char : glyph) : dict value :=
  fold_left
    (fun (char_anchors : dict value) (anchor : anchor) =>
       let name := anchor_name anchor in
       if in_tuple name valid_anchor_names
       then dict_set char_anchors name
              (VTuple [VFloat (to_spaces (anchor_x anchor));
                       VFloat (to_spaces (anchor_y anchor))])
       else char_anchors)
    (anchorPoints char) [].

(** One turn of the loop [for char in self.font] of [anchors]. *)
Definition anchors_body (all_anchors : dict value) (char : glyph)
  : result (dict value) :=
  let char_anchors := char_anchors char in
  if dict_bool char_anchors
  then char_name <- canonical_name char ;;
       Ok (dict_set all_anchors char_name (VDict char_anchors))
  else Ok all_anchors.

Definition anchors (chars : list glyph) : result (dict value) :=
  for_each chars anchors_body [].

(** [(table for table in char.getPosSub('*') if table[1] == type_)] *)
Definition tables_of_type (type_ : string) (char : glyph) : list lookup :=
  filter (fun table => String.eqb (lookup_type table) type_) (getPosSub char).

Definition alternate_record (codepoint name : string) : value :=
  VDict [("codepoint", VStr codepoint); ("name", VStr name)].

(** The two inner loops of [alternates]; [font_getitem] is [self.font[name]]. *)
Definition char_alternates (font_getitem : string -> result glyph)
  (char : glyph) : result (list value) :=
  for_each (tables_of_type "AltSubs" char)
    (fun char_alternates table =>
       for_each (lookup_glyphs table)
         (fun char_alternates name =>
            substitute_char <- font_getitem name ;;
            let codepoint := codepoint_of substitute_char in
            name <- canonical_name substitute_char ;;
            Ok (char_alternates ++ [alternate_record codepoint name])%list)
         char_alternates)
    [].

(** One turn of the outer loop of [alternates]. *)
Definition alternates_body (font_getitem : string -> result glyph)
  (all_alternates : dict value) (char : glyph) : result (dict value) :=
  char_alternates <- char_alternates font_getitem char ;;
  match char_alternates with
  | [] => Ok all_alternates
  | _ :: _ =>
      char_name <- canonical_name char ;;
      Ok (dict_set all_alternates char_name
            (VDict [("alternates", VList char_alternates)]))
  end.

Definition alternates (font_getitem : string -> result glyph)
  (chars : list glyph) : result (dict value) :=
  for_each chars (alternates_body font_getitem) [].

Definition bounding_box_record (char : glyph) : value :=
  let '(xmin, ymin, xmax, ymax) := boundingBox char in
  VDict [("bBoxNE", VTuple [VFloat (to_spaces xmax); VFloat (to_spaces ymax)]);
         ("bBoxSW", VTuple [VFloat (to_spaces xmin); VFloat (to_spaces ymin)])].

(** One turn of the loop of [bounding_boxes]. *)
Definition bounding_boxes_body (all_bounding_boxes : dict value)
  (char : glyph) : result (dict value) :=
  char_name <- canonical_name char ;;
  Ok (dict_set all_bounding_boxes char_name (bounding_box_record char)).

Definition bounding_boxes (chars : list glyph) : result (dict value) :=
  for_each chars bounding_boxes_body [].

Definition ligature_record (char : glyph) (table : lookup) : value :=
  VDict [("codepoint", VStr (codepoint_of char));
         ("componentGlyphs", VList (map VStr (lookup_glyphs table)))].

(** One turn of the outer loop of [ligatures], with its inner loop over
    the ['Ligature'] tables. *)
Definition ligatures_body (all_ligatures : dict value) (char : glyph)
  : result (dict value) :=
  char_name <- canonical_name char ;;
  Ok (fold_left
        (fun all_ligatures table =>
           dict_set all_ligatures char_name (ligature_record char table))
        (tables_of_type "Ligature" char) all_ligatures).

Definition ligatures (chars : list glyph) : result (dict value) :=
  for_each chars ligatures_body [].

(** The body of [asdict] once the font name, the version and the engraving
    defaults have been read. *)
Definition assemble (fontName fontVersion : string) (defaults : value)
  (font_getitem : string -> result glyph) (chars : list glyph)
  : result (dict value) :=
  let d := [] in
  let d := dict_set d "fontName" (VStr fontName) in
  let d := dict_set d "fontVersion" (VStr fontVersion) in
  let d := if truthy defaults then dict_set d "engravingDefaults" defaults
           else d in
  anchors <- anchors chars ;;
  let d := if dict_bool anchors
           then dict_set d "glyphsWithAnchors" (VDict anchors) else d in
  alternates <- alternates font_getitem chars ;;
  let d := if dict_bool alternates
           then dict_set d "glyphsWithAlternates" (VDict alternates) else d in
  bounding_boxes <- bounding_boxes chars ;;
  let d := if dict_bool bounding_boxes
           then dict_set d "glyphBBoxes" (VDict bounding_boxes) else d in
  ligatures <- ligatures chars ;;
  let d := if dict_bool ligatures
           then dict_set d "ligatures" (VDict ligatures) else d in
  Ok d.

End Tables.

(** ** scripts/ffsmufl.py *)

Module ffsmufl.

(** A call that reaches the wrapped [fontforge.font]. *)
Inductive ff_call : Type :=
| font_save (args : list value)
| font_close.

Section WithGlyphNames.

(** [SmuflFont.codepoint_to_name], read from glyphnames.json when the class
    body runs. *)
Variable codepoint_to_name : dict string.

(** The state behind the fontforge handle (font object and files) and the
    effect of [fontforge.font.save], called with [args], on it. *)
Variable ff_state : Type.
Variable ff_save : list value -> ff_state -> result unit * ff_state.

Definition valid_anchor_names : list string := smufl_anchor_names.

Definition format_codepoint (unicode_ : Z) : string :=
  "U+" ++ upper (slice_from 2 (hex unicode_)).

(** In the [except KeyError] branch the name [glyph] is bound neither in
    the function nor in the module, so evaluating [glyph.glyphname] raises
    [NameError]. *)
Definition canonical_glyphname (unicode_ : Z) (fallback : bool)
  : result string :=
  let codepoint := format_codepoint unicode_ in
  match dict_get codepoint_to_name codepoint with
  | Some name => Ok name
  | None => if fallback then Raise NameError else Raise ValueError
  end.

Definition em_to_spaces (em : Q) : Q := round_div_250 em.

Record SmuflFont : Type := {
  font : fontforge.font;
  read_only : bool;
  _engraving_defaults : value
}.

(** The setter of the [engraving_defaults] property. *)
Definition set_engraving_defaults (self : SmuflFont) (defaults : value)
  : result SmuflFont :=
  if negb (is_None defaults) && negb (isinstance_dict defaults)
  then Raise TypeError
  else Ok {| font := font self;
             read_only := read_only self;
             _engraving_defaults := defaults |}.

(** [__init__], given the font that [fontforge.open(path)] returned. *)
Definition __init__ (opened : fontforge.font) (mode : string)
  (engraving_defaults : value) : result SmuflFont :=
  set_engraving_defaults
    {| font := opened;
       read_only := String.eqb mode "r";
       _engraving_defaults := VNone |}
    engraving_defaults.

Definition __iter__ (self : SmuflFont) : list glyph :=
  filter in_smufl_range (glyphs (font self)).

Definition __getitem__ (self : SmuflFont) (glyphname : string)
  : result glyph :=
  getitem (font self) glyphname.

(** What [save] acts on: the library state and the calls made to it. *)
Record world : Type := {
  ff : ff_state;
  calls : list ff_call
}.

Definition save (self : SmuflFont) (args : list value) (w : world)
  : result unit * world :=
  if read_only self && negb (truthy (VTuple args))
  then (Raise PermissionError, w)
  else let (r, s) := ff_save args (ff w) in
       (r, {| ff := s; calls := (calls w ++ [font_save args])%list |}).

(** *** [_SmuflMetadata], with [self.font] a [SmuflFont] *)

Definition canonical_name (char : glyph) : result string :=
  canonical_glyphname (unicode char) true.

Definition codepoint_of (char : glyph) : string :=
  format_codepoint (unicode char).

Definition engraving_defaults (self : SmuflFont) : value :=
  _engraving_defaults self.

Definition anchors (self : SmuflFont) : result (dict value) :=
  anchors valid_anchor_names canonical_name em_to_spaces (__iter__ self).

Definition alternates (self : SmuflFont) : result (dict value) :=
  alternates codepoint_of canonical_name (__getitem__ self) (__iter__ self).

Definition bounding_boxes (self : SmuflFont) : result (dict value) :=
  bounding_boxes canonical_name em_to_spaces (__iter__ self).

Definition ligatures (self : SmuflFont) : result (dict value) :=
  ligatures codepoint_of canonical_name (__iter__ self).

Definition asdict (self : SmuflFont) : result (dict value) :=
  assemble valid_anchor_names codepoint_of canonical_name em_to_spaces
    (fontname (font self)) (version (font self)) (engraving_defaults self)
    (__getitem__ self) (__iter__ self).

Definition generate_metadata (self : SmuflFont) : result (dict value) :=
  asdict self.

End WithGlyphNames.

End ffsmufl.

(** ** scripts/ff_smufl_metadata.py *)

Module ff_smufl_metadata.

Section WithGlyphNames.

(** The module global read from glyphnames.json at import. *)
Variable SMUFL_CODEPOINT_TO_NAME : dict string.

Definition SMUFL_ANCHOR_NAMES : list string := smufl_anchor_names.

Definition smufl_codepoint (glyph : glyph) : string :=
  "U+" ++ upper (slice_from 2 (hex (unicode glyph))).

Definition smufl_canonical_name (glyph : glyph) (fallback : bool)
  : result string :=
  let codepoint := smufl_codepoint glyph in
  match dict_get SMUFL_CODEPOINT_TO_NAME codepoint with
  | Some name => Ok name
  | None => if fallback then Ok (glyphname glyph) else Raise ValueError
  end.

Definition to_spaces (i : Q) : Q := round_div_250 i.

(** [SmuflMetadata(font, engravingDefaults)]; [font] is the fontforge font
    itself. *)
Record SmuflMetadata : Type := {
  font : fontforge.font;
  engravingDefaults : value
}.

Definition characters (self : SmuflMetadata) : list glyph :=
  filter in_smufl_range (glyphs (font self)).

Definition canonical_name (char : glyph) : result string :=
  smufl_canonical_name char true.

Definition glyphsWithAnchors (self : SmuflMetadata) : result (dict value) :=
  anchors SMUFL_ANCHOR_NAMES canonical_name to_spaces (characters self).

Definition glyphsWithAlternates (self : SmuflMetadata)
  : result (dict value) :=
  alternates smufl_codepoint canonical_name (getitem (font self))
    (characters self).

Definition glyphBBoxes (self : SmuflMetadata) : result (dict value) :=
  bounding_boxes canonical_name to_spaces (characters self).

Definition ligatures (self : SmuflMetadata) : result (dict value) :=
  ligatures smufl_codepoint canonical_name (characters self).

Definition asdict (self : SmuflMetadata) : result (dict value) :=
  assemble SMUFL_ANCHOR_NAMES smufl_codepoint canonical_name to_spaces
    (fontname (font self)) (version (font self)) (engravingDefaults self)
    (getitem (font self)) (characters self).

End WithGlyphNames.

End ff_smufl_metadata.

(** ** scripts/ff-smufl.py *)

Module ff_smufl.

Section WithGlyphNames.

Variable codepoint_to_name : dict string.

Definition valid_anchor_names : list string := smufl_anchor_names.

Definition format_codepoint (unicode_ : Z) : string :=
  "U+" ++ upper (slice_from 2 (hex unicode_)).

(** As in ffsmufl.py, [glyph] is unbound in the fallback branch. *)
Definition canonical_glyphname (unicode_ : Z) (fallback : bool)
  : result string :=
  let codepoint := format_codepoint unicode_ in
  match dict_get codepoint_to_name codepoint with
  | Some name => Ok name
  | None => if fallback then Raise NameError else Raise ValueError
  end.

Definition em_to_spaces (em : Q) : Q := round_div_250 em.

Record SmuflFont : Type := {
  font : fontforge.font;
  read_only : bool;
  _engraving_defaults : value
}.

Definition __iter__ (self : SmuflFont) : list glyph :=
  filter in_smufl_range (glyphs (font self)).

Definition __getitem__ (self : SmuflFont) (glyphname : string)
  : result glyph :=
  getitem (font self) glyphname.

(** [SmuflMetadata(font, engraving_defaults)], with [font] a [SmuflFont]. *)
Record SmuflMetadata : Type := {
  metadata_font : SmuflFont;
  engraving_defaults : value
}.

Definition canonical_name (char : glyph) : result string :=
  canonical_glyphname (unicode char) true.

Definition codepoint_of (char : glyph) : string :=
  format_codepoint (unicode char).

Definition asdict (self : SmuflMetadata) : result (dict value) :=
  let font_ := metadata_font self in
  assemble valid_anchor_names codepoint_of canonical_name em_to_spaces
    (fontname (font font_)) (version (font font_)) (engraving_defaults self)
    (__getitem__ font_) (__iter__ font_).

(** [defaults = defaults or self.engraving_defaults] *)
Definition generate_metadata (self : SmuflFont) (defaults : value)
  : result (dict value) :=
  let defaults := if truthy defaults then defaults
                  else _engraving_defaults self in
  asdict {| metadata_font := self; engraving_defaults := defaults |}.

End WithGlyphNames.

End ff_smufl.

(** ** Reading a codepoint string back

    The inverse direction used to state the round trip of
    [format_codepoint]: [int(s, 16)] on a plain string of hexadecimal
    digits, after the ["U+"] prefix. *)

Definition valid_scalar (c : Z) : Prop :=
  0 <= c <= 1114111 /\ ~ (55296 <= c <= 57343).

Definition is_upper_hex_digit (c : ascii) : bool :=
  let n := nat_of_ascii c in
  (((48 <=? n) && (n <=? 57)) || ((65 <=? n) && (n <=? 70)))%nat.

Definition hex_digit_value (c : ascii) : option Z :=
  let n := nat_of_ascii c in
  if ((48 <=? n) && (n <=? 57))%nat then Some (Z.of_nat n - 48)
  else if ((65 <=? n) && (n <=? 70))%nat then Some (Z.of_nat n - 55)
  else if ((97 <=? n) && (n <=? 102))%nat then Some (Z.of_nat n - 87)
  else None.

Fixpoint int16_from (acc : Z) (s : string) : option Z :=
  match s with
  | "" => Some acc
  | String c s' =>
      match hex_digit_value c with
      | Some v => int16_from (acc * 16 + v) s'
      | None => None
      end
  end.

Definition int16 (s : string) : option Z :=
  match s with
  | "" => None
  | _ => int16_from 0 s
  end.

Definition parse_codepoint (s : string) : option Z :=
  match s with
  | String "U" (String "+" digits) => int16 digits
  | _ => None
  end.

Fixpoint string_forall (p : ascii -> bool) (s : string) : bool :=
  match s with
  | "" => true
  | String c s' => p c && string_forall p s'
  end.

Definition first_char (s : string) : option ascii :=
  match s with
  | "" => None
  | String c _ => Some c
  end.

(** Upper-case digits with no padding: the only digit string that may start
    with [0] is ["0"] itself. *)
Definition unpadded_upper_hex (s : string) : Prop :=
  string_forall is_upper_hex_digit s = true
  /\ s <> ""
  /\ (s = "0" \/ first_char s <> Some "0"%char).

(** ** Sample fonts

    Small fonts on which the definitions are run. *)

Module Samples.

(** A reference table with the single entry U+E000. *)
Definition glyphnames : dict string := [("U+E000", "noteheadBlack")].

(** A glyph at codepoint 57344 with one anchor [stemUpSE] at [(40, 100)]
    and no lookups. *)
Definition notehead : glyph := {|
  unicode := 57344;
  glyphname := "uniE000";
  anchorPoints :=
    [ {| anchor_name := "stemUpSE"; anchor_type := "base";
         anchor_x := 40 # 1; anchor_y := 100 # 1 |} ];
  boundingBox := (0 # 1, - 125 # 1, 295 # 1, 125 # 1);
  getPosSub := []
|}.

Definition notehead_font : font := {|
  fontname := "Sebastian";
  version := "1.0";
  glyphs := [notehead]
|}.

(** The state of a library whose [save] always succeeds and counts the
    files written. *)
Definition counting_save (args : list value) (n : nat)
  : result unit * nat :=
  (Ok tt, S n).

Definition read_only_font : ffsmufl.SmuflFont := {|
  ffsmufl.font := notehead_font;
  ffsmufl.read_only := true;
  ffsmufl._engraving_defaults := VNone
|}.

Definition writable_font : ffsmufl.SmuflFont := {|
  ffsmufl.font := notehead_font;
  ffsmufl.read_only := false;
  ffsmufl._engraving_defaults := VNone
|}.

(** Two glyphs, the first with one ['AltSubs'] rule naming the second and
    two ['Ligature'] rules. *)
Definition brace_names : dict string :=
  [("U+E000", "brace"); ("U+E001", "reversedBrace")].

Definition brace : glyph := {|
  unicode := 57344;
  glyphname := "uniE000";
  anchorPoints := [];
  boundingBox := (0 # 1, 0 # 1, 82 # 1, 1000 # 1);
  getPosSub :=
    [ {| lookup_subtable := "salt-1"; lookup_type := "AltSubs";
         lookup_glyphs := ["uniE001"] |};
      {| lookup_subtable := "liga-1"; lookup_type := "Ligature";
         lookup_glyphs := ["uniE002"; "uniE003"] |};
      {| lookup_subtable := "liga-2"; lookup_type := "Ligature";
         lookup_glyphs := ["uniE004"; "uniE005"] |} ]
|}.

Definition reversed_brace : glyph := {|
  unicode := 57345;
  glyphname := "uniE001";
  anchorPoints := [];
  boundingBox := (0 # 1, 0 # 1, 82 # 1, 1000 # 1);
  getPosSub := []
|}.

Definition brace_font : font := {|
  fontname := "Sebastian";
  version := "1.0";
  glyphs := [brace; reversed_brace]
|}.

Definition brace_SmuflFont : ffsmufl.SmuflFont := {|
  ffsmufl.font := brace_font;
  ffsmufl.read_only := true;
  ffsmufl._engraving_defaults := VNone
|}.

Definition brace_SmuflMetadata : ff_smufl_metadata.SmuflMetadata := {|
  ff_smufl_metadata.font := brace_font;
  ff_smufl_metadata.engravingDefaults := VNone
|}.

(** A glyph at U+F3FF, the last codepoint of the range, which the table
    [glyphnames] does not name; it has one recognized anchor and two
    ['Ligature'] rules. *)
Definition private_glyph : glyph := {|
  unicode := 62463;
  glyphname := "uniF3FF";
  anchorPoints :=
    [ {| anchor_name := "stemUpSE"; anchor_type := "base";
         anchor_x := 40 # 1; anchor_y := 100 # 1 |};
      {| anchor_name := "myOwnAnchor"; anchor_type := "base";
         anchor_x := 1 # 1; anchor_y := 2 # 1 |} ];
  boundingBox := (0 # 1, - 125 # 1, 295 # 1, 125 # 1);
  getPosSub :=
    [ {| lookup_subtable := "liga-1"; lookup_type := "Ligature";
         lookup_glyphs := ["uniE002"; "uniE003"] |};
      {| lookup_subtable := "liga-2"; lookup_type := "Ligature";
         lookup_glyphs := ["uniE004"; "uniE005"] |} ]
|}.

Definition private_font : font := {|
  fontname := "Sebastian";
  version := "1.0";
  glyphs := [notehead; private_glyph]
|}.

Definition private_SmuflFont : ffsmufl.SmuflFont := {|
  ffsmufl.font := private_font;
  ffsmufl.read_only := true;
  ffsmufl._engraving_defaults := VNone
|}.

Definition private_SmuflMetadata : ff_smufl_metadata.SmuflMetadata := {|
  ff_smufl_metadata.font := private_font;
  ff_smufl_metadata.engravingDefaults := VNone
|}.

Definition private_ff_smufl : ff_smufl.SmuflMetadata := {|
  ff_smufl.metadata_font :=
    {| ff_smufl.font := private_font;
       ff_smufl.read_only := true;
       ff_smufl._engraving_defaults := VNone |};
  ff_smufl.engraving_defaults := VNone
|}.

(** A reference table that names U+E000 but not U+E001. *)
Definition brace_only_names : dict string := [("U+E000", "brace")].

Definition notehead_SmuflMetadata : ff_smufl_metadata.SmuflMetadata := {|
  ff_smufl_metadata.font := notehead_font;
  ff_smufl_metadata.engravingDefaults := VNone
|}.

Definition notehead_ff_smufl : ff_smufl.SmuflMetadata := {|
  ff_smufl.metadata_font :=
    {| ff_smufl.font := notehead_font;
       ff_smufl.read_only := false;
       ff_smufl._engraving_defaults := VNone |};
  ff_smufl.engraving_defaults := VNone
|}.

(** The empty reference table: no codepoint has a canonical name. *)
Definition no_glyphnames : dict string := [].

Definition fresh_world : ffsmufl.world nat :=
  {| ffsmufl.ff := O; ffsmufl.calls := [] |}.

End Samples.

(** ** Notions used to state the properties *)

(** The document [asdict] builds from the four tables once they are
    computed. *)
Definition document (fontName fontVersion : string) (defaults : value)
  (anchors alternates bounding_boxes ligatures : dict value) : dict value :=
  let d := [("fontName", VStr fontName); ("fontVersion", VStr fontVersion)] in
  let d := if truthy defaults then dict_set d "engravingDefaults" defaults
           else d in
  let d := if dict_bool anchors
           then dict_set d "glyphsWithAnchors" (VDict anchors) else d in
  let d := if dict_bool alternates
           then dict_set d "glyphsWithAlternates" (VDict alternates) else d in
  let d := if dict_bool bounding_boxes
           then dict_set d "glyphBBoxes" (VDict bounding_boxes) else d in
  if dict_bool ligatures then dict_set d "ligatures" (VDict ligatures) else d.

(** The keys of the document that hold a table. *)
Definition sub_table_keys : list string :=
  ["engravingDefaults"; "glyphsWithAnchors"; "glyphsWithAlternates";
   "glyphBBoxes"; "ligatures"].

Definition glyph_table_keys : list string :=
  ["glyphsWithAnchors"; "glyphsWithAlternates"; "glyphBBoxes"; "ligatures"].

(** A loop body that leaves the table alone or assigns to the key that is
    the resolved name of the glyph at hand. *)
Definition own_key_step (canonical_name : glyph -> result string)
  (body : dict value -> glyph -> result (dict value)) : Prop :=
  forall d g d', body d g = Ok d' ->
    d' = d \/ exists k v, canonical_name g = Ok k /\ d' = dict_set d k v.

(** A glyph stripped of everything but its codepoint and name. *)
Definition bare (g : glyph) : glyph := {|
  unicode := unicode g;
  glyphname := glyphname g;
  anchorPoints := [];
  boundingBox := (0 # 1, 0 # 1, 0 # 1, 0 # 1);
  getPosSub := []
|}.

(** The font in which every glyph outside the SMuFL range is stripped of
    its anchors, outline and lookups. *)
Definition strip_outside_glyph (g : glyph) : glyph :=
  if in_smufl_range g then g else bare g.

Definition strip_outside (f : font) : font := {|
  fontname := fontname f;
  version := version f;
  glyphs := map strip_outside_glyph (glyphs f)
|}.

(** A glyph has a recognized anchor. *)
Definition has_valid_anchor (g : glyph) : bool :=
  existsb (fun a => in_tuple (anchor_name a) smufl_anchor_names)
    (anchorPoints g).

(** The substitutes of a glyph, in the order its ['AltSubs'] rules list
    them. *)
Definition substitute_names (g : glyph) : list string :=
  flat_map lookup_glyphs (tables_of_type "AltSubs" g).

(** The last element of a list, if any. *)
Definition last_opt {A} (l : list A) : option A :=
  match rev l with
  | [] => None
  | x :: _ => Some x
  end.

(** No key that holds a table is bound to an empty container. *)
Definition no_empty_tables (doc : dict value) : Prop :=
  forall k v, In k sub_table_keys -> In (k, v) doc ->
    is_empty_container v = false.

(** [key] is in the document exactly when [table] was computed and is not
    empty, and then it is bound to that table. *)
Definition present_iff_nonempty (doc : dict value) (key : string)
  (table : result (dict value)) : Prop :=
  forall v, dict_get doc key = Some v
    <-> exists t, table = Ok t /\ t <> [] /\ v = VDict t.

(** What [asdict] promises about the optional keys of its document, given
    the engraving defaults and the four tables it computed. *)
Definition omits_empty_tables (doc : dict value) (defaults : value)
  (anchors alternates bounding_boxes ligatures : result (dict value))
  : Prop :=
  no_empty_tables doc
  /\ (forall v, dict_get doc "engravingDefaults" = Some v
        <-> v = defaults /\ truthy defaults = true)
  /\ present_iff_nonempty doc "glyphsWithAnchors" anchors
  /\ present_iff_nonempty doc "glyphsWithAlternates" alternates
  /\ present_iff_nonempty doc "glyphBBoxes" bounding_boxes
  /\ present_iff_nonempty doc "ligatures" ligatures.

(** No glyph of the SMuFL range has a recognized anchor. *)
Definition no_valid_anchors (f : font) : Prop :=
  forall g, In g (glyphs f) -> in_smufl_range g = true ->
    has_valid_anchor g = false.

(** The same wrappers around the stripped font. *)
Definition strip_outside_SmuflFont (self : ffsmufl.SmuflFont)
  : ffsmufl.SmuflFont := {|
  ffsmufl.font := strip_outside (ffsmufl.font self);
  ffsmufl.read_only := ffsmufl.read_only self;
  ffsmufl._engraving_defaults := ffsmufl._engraving_defaults self
|}.

Definition strip_outside_SmuflMetadata
  (self : ff_smufl_metadata.SmuflMetadata)
  : ff_smufl_metadata.SmuflMetadata := {|
  ff_smufl_metadata.font := strip_outside (ff_smufl_metadata.font self);
  ff_smufl_metadata.engravingDefaults :=
    ff_smufl_metadata.engravingDefaults self
|}.

(** [record] is the [{codepoint, name}] dictionary of the substitute glyph
    called [name]. *)
Definition substitute_record (codepoint_of : glyph -> string)
  (canonical_name : glyph -> result string)
  (font_getitem : string -> result glyph) (name : string) (record : value)
  : Prop :=
  exists substitute_char canonical,
    font_getitem name = Ok substitute_char
    /\ canonical_name substitute_char = Ok canonical
    /\ record = alternate_record (codepoint_of substitute_char) canonical.

(** The entry of [glyphsWithAlternates] for a list of substitute records:
    none for the empty list, else the list under the key ["alternates"]. *)
Definition alternates_entry (records : list value) : option value :=
  match records with
  | [] => None
  | _ :: _ => Some (VDict [("alternates", VList records)])
  end.

(** ** The rest of the scripts *)

Definition ascii_lower (c : ascii) : ascii :=
  let n := nat_of_ascii c in
  if ((65 <=? n) && (n <=? 90))%nat then ascii_of_nat (n + 32) else c.

(** [s.lower()] on ASCII text. *)
Fixpoint lower (s : string) : string :=
  match s with
  | "" => ""
  | String c s' => String (ascii_lower c) (lower s')
  end.


(** [a or b] *)
Definition py_or (a b : value) : value := if truthy a then a else b.

(** *** Reading glyphnames.json

    The parsed file maps a glyph name to a record of string fields, one of
    them ["codepoint"].  The comprehension
    [{data['codepoint']: name for name, data in glyphnames.items()}] is the
    same in the three scripts; a record without ["codepoint"] raises
    [KeyError]. *)
Definition invert_glyphnames (glyphnames : dict (dict string))
  : result (dict string) :=
  for_each glyphnames
    (fun codepoint_to_name (item : string * dict string) =>
       let (name, data) := item in
       match dict_get data "codepoint" with
       | Some codepoint => Ok (dict_set codepoint_to_name codepoint name)
       | None => Raise KeyError
       end)
    [].

(** The loop of the class body of ffsmufl.py over the files the glob
    finds.  A candidate is the outcome of opening and parsing one file.
    The first candidate that is read and inverted ends the loop
    ([break]); any exception moves on to the next file (the bare
    [except: continue]).  [None]: the loop ends with [codepoint_to_name]
    never assigned. *)
Fixpoint load_codepoint_to_name
  (candidates : list (result (dict (dict string)))) : option (dict string) :=
  match candidates with
  | [] => None
  | candidate :: rest =>
      match (glyphnames <- candidate ;; invert_glyphnames glyphnames) with
      | Ok codepoint_to_name => Some codepoint_to_name
      | Raise _ => load_codepoint_to_name rest
      end
  end.

(** [glyph.glyphname = name]: the assignment stores the name. *)
Definition set_glyphname (g : glyph) (name : string) : glyph := {|
  unicode := unicode g;
  glyphname := name;
  anchorPoints := anchorPoints g;
  boundingBox := boundingBox g;
  getPosSub := getPosSub g
|}.

(** Writing the metadata file, shared by [export_metadata] and
    [dump_json]: [with io.open(filename, 'w') as f: json.dump(metadata(), f,
    ...)].  Opening creates or truncates the file before the metadata is
    computed; the text [json.dump] wrote is in the file when the block is
    left, also when it raised. *)
Section WriteJson.

(** Whether [io.open(path, 'w')] succeeds, and what [json.dump] does with a
    document: its outcome and the text it wrote. *)
Variable can_open : string -> bool.
Variable json_dump : dict value -> value -> dict value -> result unit * string.

Definition write_json (filename : string) (metadata : result (dict value))
  (indent : value) (kwargs : dict value) (files : dict string)
  : result unit * dict string :=
  if can_open filename
  then let files := dict_set files filename "" in
       match metadata with
       | Raise e => (Raise e, files)
       | Ok doc =>
           let (r, text) := json_dump doc indent kwargs in
           (r, dict_set files filename text)
       end
  else (Raise OSError, files).

(** [filename or default] for an optional path. *)
Definition path_or (filename : option string) (default : string) : string :=
  match filename with
  | Some f => if String.eqb f "" then default else f
  | None => default
  end.

End WriteJson.

(** *** More of ffsmufl.py *)

Module ffsmufl_facade.

Section WithGlyphNames.

Variable codepoint_to_name : dict string.
Variable ff_state : Type.
(** [fontforge.font.generate], called with positional and keyword
    arguments. *)
Variable ff_generate :
  list value -> dict value -> ff_state -> result unit * ff_state.
Variable can_open : string -> bool.
Variable json_dump : dict value -> value -> dict value -> result unit * string.

(** The loop of [rename_glyphs] over [self.font.glyphs()]: the glyphs
    renamed so far stay renamed when a later lookup raises. *)
Fixpoint rename_loop (glyphs : list glyph) : result unit * list glyph :=
  match glyphs with
  | [] => (Ok tt, [])
  | glyph :: rest =>
      if in_smufl_range glyph
      then match ffsmufl.canonical_glyphname codepoint_to_name
                   (unicode glyph) true with
           | Ok name =>
               let (r, rest') := rename_loop rest in
               (r, set_glyphname glyph name :: rest')
           | Raise e => (Raise e, glyph :: rest)
           end
      else let (r, rest') := rename_loop rest in (r, glyph :: rest')
  end.

Definition rename_glyphs (self : ffsmufl.SmuflFont)
  : result unit * ffsmufl.SmuflFont :=
  let (r, glyphs') := rename_loop (glyphs (ffsmufl.font self)) in
  (r, {| ffsmufl.font :=
           {| fontname := fontname (ffsmufl.font self);
              version := version (ffsmufl.font self);
              glyphs := glyphs' |};
         ffsmufl.read_only := ffsmufl.read_only self;
         ffsmufl._engraving_defaults := ffsmufl._engraving_defaults self |}).

Definition export_font (self : ffsmufl.SmuflFont) (filename : value)
  (args : list value) (kwargs : dict value) (st : ff_state)
  : result unit * ff_state :=
  let filename :=
    py_or filename (VStr (lower (fontname (ffsmufl.font self)) ++ ".otf")) in
  ff_generate (filename :: args) kwargs st.

Definition export_metadata (self : ffsmufl.SmuflFont)
  (filename : option string) (indent : value) (kwargs : dict value)
  (files : dict string) : result unit * dict string :=
  let filename :=
    path_or filename (lower (fontname (ffsmufl.font self)) ++ ".json") in
  write_json can_open json_dump filename
    (ffsmufl.generate_metadata codepoint_to_name self) indent kwargs files.

End WithGlyphNames.

(** The [SmuflFont] objects a program can hold: made by [__init__], then
    changed through the [engraving_defaults] setter. *)
Inductive constructed : ffsmufl.SmuflFont -> Prop :=
| constructed_init opened mode defaults self :
    ffsmufl.__init__ opened mode defaults = Ok self -> constructed self
| constructed_set self defaults self' :
    constructed self ->
    ffsmufl.set_engraving_defaults self defaults = Ok self' ->
    constructed self'.

End ffsmufl_facade.

(** *** More of ff-smufl.py and ff_smufl_metadata.py *)

Module ff_smufl_facade.

Section WithLibrary.

Variable ff_state : Type.
Variable ff_generate :
  list value -> dict value -> ff_state -> result unit * ff_state.

(** [filename] is computed and then not passed on:
    [self.font.generate( *args, **kwargs)]. *)
Definition export_font (self : ff_smufl.SmuflFont) (filename : value)
  (args : list value) (kwargs : dict value) (st : ff_state)
  : result unit * ff_state :=
  let filename :=
    py_or filename (VStr (lower (fontname (ff_smufl.font self)) ++ ".otf")) in
  ff_generate args kwargs st.

End WithLibrary.

End ff_smufl_facade.

Module ff_smufl_metadata_io.

Section WithGlyphNames.

Variable SMUFL_CODEPOINT_TO_NAME : dict string.
Variable can_open : string -> bool.
Variable json_dump : dict value -> value -> dict value -> result unit * string.

Definition dump_json (self : ff_smufl_metadata.SmuflMetadata)
  (target : option string) (indent : value) (kwargs : dict value)
  (files : dict string) : result unit * dict string :=
  let target :=
    path_or target (fontname (ff_smufl_metadata.font self) ++ ".json") in
  write_json can_open json_dump target
    (ff_smufl_metadata.asdict SMUFL_CODEPOINT_TO_NAME self)
    indent kwargs files.

End WithGlyphNames.

End ff_smufl_metadata_io.

(** *** More sample data *)

Module Fixtures.

(** An unencoded glyph: fontforge gives it the codepoint [-1]. *)
Definition unencoded : glyph := {|
  unicode := -1;
  glyphname := "noteheadBlack.alt";
  anchorPoints := [];
  boundingBox := (0 # 1, 0 # 1, 0 # 1, 0 # 1);
  getPosSub := []
|}.

(** The head of the SMuFL glyphnames.json. *)
Definition glyphnames_json : dict (dict string) :=
  [ ("brace", [("codepoint", "U+E000"); ("description", "Brace")]);
    ("reversedBrace",
     [("codepoint", "U+E001"); ("description", "Reversed brace")]);
    ("bracket", [("codepoint", "U+E002"); ("description", "Bracket")]) ].

(** A file whose second record lacks the codepoint. *)
Definition broken_json : dict (dict string) :=
  [ ("brace", [("codepoint", "U+E000")]);
    ("reversedBrace", [("description", "Reversed brace")]) ].


(** Every path can be opened; [json.dump] writes a fixed text. *)
Definition always_open (path : string) : bool := true.

Definition constant_dump (doc : dict value) (indent : value)
  (kwargs : dict value) : result unit * string :=
  (Ok tt, "{}").

End Fixtures.

(** *** Notions for the further properties *)

(** The order in which [asdict] assigns the keys of the document. *)
Definition document_key_order : list string :=
  ["fontName"; "fontVersion"; "engravingDefaults"; "glyphsWithAnchors";
   "glyphsWithAlternates"; "glyphBBoxes"; "ligatures"].

Definition has_key (doc : dict value) (key : string) : bool :=
  match dict_get doc key with
  | Some _ => true
  | None => false
  end.

(** The keys of the document are those it has, in the order of assignment,
    each once, and the first two are the font's name and version. *)
Definition well_ordered_document (doc : dict value)
  (fontName fontVersion : string) : Prop :=
  dict_keys doc = filter (has_key doc) document_key_order
  /\ NoDup (dict_keys doc)
  /\ dict_get doc "fontName" = Some (VStr fontName)
  /\ dict_get doc "fontVersion" = Some (VStr fontVersion).


(** A table in which no two keys have the same value. *)
Definition injective_table (table : dict string) : Prop :=
  forall c1 c2 name,
    dict_get table c1 = Some name -> dict_get table c2 = Some name ->
    c1 = c2.

(** Loading one candidate file: read, parse, invert. *)
Definition load_candidate (candidate : result (dict (dict string)))
  : result (dict string) :=
  glyphnames <- candidate ;; invert_glyphnames glyphnames.

(** The name [smufl_canonical_name] resolves a glyph to with its default
    [fallback]: the table's, else the glyph's own. *)
Definition smufl_name (table : dict string) (g : glyph) : string :=
  match dict_get table (ff_smufl_metadata.smufl_codepoint g) with
  | Some name => name
  | None => glyphname g
  end.

(** The entry of a glyph in the anchors table. *)
Definition anchors_entry (g : glyph) : option value :=
  if has_valid_anchor g
  then Some (VDict (char_anchors smufl_anchor_names round_div_250 g))
  else None.

(** The entry of a glyph in the ligatures table: the record of its last
    ['Ligature'] rule. *)
Definition ligatures_entry_of (g : glyph) : option value :=
  match last_opt (tables_of_type "Ligature" g) with
  | Some rule =>
      Some (ligature_record ff_smufl_metadata.smufl_codepoint g rule)
  | None => None
  end.

(** The converted coordinate pair of an anchor point. *)
Definition anchor_pair (a : anchor) : value :=
  VTuple [VFloat (round_div_250 (anchor_x a));
          VFloat (round_div_250 (anchor_y a))].

(** What [rename_glyphs] makes of one glyph when the table names it. *)
Definition renamed (table : dict string) (g : glyph) : glyph :=
  if in_smufl_range g
  then match dict_get table (ffsmufl.format_codepoint (unicode g)) with
       | Some name => set_glyphname g name
       | None => g
       end
  else g.

(** The glyph is outside the range or the table has its codepoint. *)
Definition nameable (table : dict string) (g : glyph) : Prop :=
  in_smufl_range g = true ->
  dict_get table (ffsmufl.format_codepoint (unicode g)) <> None.

(** The same [SmuflFont] around another list of glyphs. *)
Definition with_glyphs (self : ffsmufl.SmuflFont) (gs : list glyph)
  : ffsmufl.SmuflFont := {|
  ffsmufl.font :=
    {| fontname := fontname (ffsmufl.font self);
       version := version (ffsmufl.font self);
       glyphs := gs |};
  ffsmufl.read_only := ffsmufl.read_only self;
  ffsmufl._engraving_defaults := ffsmufl._engraving_defaults self
|}.


Module Fixtures_io.


(** The files of an earlier build. *)
Definition old_files : dict string :=
  [("sebastian.json", "{ earlier metadata }"); ("sebastian.otf", "OTTO")].


End Fixtures_io.

(** * Properties *)

(** ** Dictionaries *)

Section DictFacts.
Variable V : Type.
Implicit Types (d : dict V) (k : string) (v : V).

Lemma dict_get_set_same d k v : dict_get (dict_set d k v) k = Some v.
Proof.
  induction d as [|[k' v'] d IH]; simpl.
  - now rewrite String.eqb_refl.
  - destruct (String.eqb k' k) eqn:E; simpl; rewrite E; auto.
Qed.

Lemma dict_get_set_other d k k' v :
  k <> k' -> dict_get (dict_set d k v) k' = dict_get d k'.
Proof.
  intros Hne. induction d as [|[k0 v0] d IH]; simpl.
  - destruct (String.eqb k k') eqn:E; auto.
    apply String.eqb_eq in E. contradiction.
  - destruct (String.eqb k0 k) eqn:E; simpl.
    + apply String.eqb_eq in E. subst k0.
      destruct (String.eqb k k') eqn:E'; auto.
      apply String.eqb_eq in E'. contradiction.
    + now rewrite IH.
Qed.

Lemma dict_keys_set d k v k' :
  In k' (dict_keys (dict_set d k v)) <-> k' = k \/ In k' (dict_keys d).
Proof.
  unfold dict_keys. induction d as [|[k0 v0] d IH]; simpl.
  - intuition.
  - destruct (String.eqb k0 k) eqn:E; simpl.
    + apply String.eqb_eq in E. subst. intuition.
    + rewrite IH. intuition.
Qed.

Lemma dict_set_set d k v v' : dict_set (dict_set d k v) k v' = dict_set d k v'.
Proof.
  induction d as [|[k0 v0] d IH]; simpl.
  - now rewrite String.eqb_refl.
  - destruct (String.eqb k0 k) eqn:E; simpl; rewrite E; auto.
    now rewrite IH.
Qed.

Lemma dict_bool_set d k v : dict_bool (dict_set d k v) = true.
Proof.
  destruct d as [|[k0 v0] d]; simpl; auto.
  now destruct (String.eqb k0 k).
Qed.


Lemma dict_get_keys d k : In k (dict_keys d) <-> dict_get d k <> None.
Proof.
  unfold dict_keys. induction d as [|[k0 v0] d IH]; simpl.
  - intuition.
  - destruct (String.eqb k0 k) eqn:E.
    + apply String.eqb_eq in E. split; [discriminate | auto].
    + apply String.eqb_neq in E. rewrite <- IH. intuition.
Qed.


End DictFacts.

(** ** [format_codepoint] *)

Lemma hex_digit_upper d :
  0 <= d < 16 ->
  is_upper_hex_digit (ascii_upper (hex_digit d)) = true
  /\ hex_digit_value (ascii_upper (hex_digit d)) = Some d
  /\ (d <> 0 -> ascii_upper (hex_digit d) <> "0"%char)
  /\ (d = 0 -> ascii_upper (hex_digit d) = "0"%char).
Proof.
  intros H.
  assert (d = 0 \/ d = 1 \/ d = 2 \/ d = 3 \/ d = 4 \/ d = 5 \/ d = 6
          \/ d = 7 \/ d = 8 \/ d = 9 \/ d = 10 \/ d = 11 \/ d = 12
          \/ d = 13 \/ d = 14 \/ d = 15) as Hd by lia.
  repeat (destruct Hd as [->|Hd]); try subst d;
    (split; [reflexivity | split; [reflexivity | split; intro; vm_compute;
       solve [discriminate | congruence | reflexivity | lia]]]).
Qed.

Lemma upper_app a b : upper (a ++ b) = upper a ++ upper b.
Proof. induction a; simpl; congruence. Qed.

Lemma string_forall_app p a b :
  string_forall p (a ++ b) = string_forall p a && string_forall p b.
Proof.
  induction a; simpl; auto. rewrite IHa. now rewrite andb_assoc.
Qed.

Lemma int16_from_app a b acc :
  int16_from acc (a ++ b)
  = match int16_from acc a with
    | Some x => int16_from x b
    | None => None
    end.
Proof.
  revert acc. induction a as [|c a IH]; intros acc; simpl; auto.
  destruct (hex_digit_value c); auto.
Qed.

Lemma first_char_app a b : a <> "" -> first_char (a ++ b) = first_char a.
Proof. destruct a; simpl; congruence. Qed.

Lemma app_nonempty a b : a <> "" -> a ++ b <> "".
Proof. destruct a; simpl; congruence. Qed.

Lemma single_digit_spec n :
  0 <= n < 16 ->
  let s := upper (String (hex_digit n) "") in
  string_forall is_upper_hex_digit s = true
  /\ s <> ""
  /\ (n <> 0 -> first_char s <> Some "0"%char)
  /\ (n = 0 -> s = "0")
  /\ exists m, forall acc, int16_from acc s = Some (acc * m + n).
Proof.
  intros Hn. destruct (hex_digit_upper Hn) as (Hu & Hv & Hnz & Hz).
  cbn [upper string_forall first_char int16_from]. rewrite Hu, Hv.
  split; [reflexivity|]. split; [discriminate|].
  split; [intros H0 [= E]; now apply Hnz|].
  split; [intros H0; now rewrite (Hz H0)|].
  exists 16. intros acc. reflexivity.
Qed.

(** The digits produced with enough fuel: upper-case after [upper], no
    leading zero, and they read back to [n]. *)
Lemma hex_digits_upto_spec fuel :
  forall n, 0 <= n < 2 ^ (Z.of_nat fuel + 1) ->
  let s := upper (hex_digits_upto fuel n) in
  string_forall is_upper_hex_digit s = true
  /\ s <> ""
  /\ (n <> 0 -> first_char s <> Some "0"%char)
  /\ (n = 0 -> s = "0")
  /\ exists m, forall acc, int16_from acc s = Some (acc * m + n).
Proof.
  induction fuel as [|fuel IH]; intros n Hn.
  - assert (0 <= n < 16) as Hlt by (simpl in Hn; lia).
    apply single_digit_spec; assumption.
  - cbn [hex_digits_upto]. destruct (n <? 16) eqn:E.
    + apply Z.ltb_lt in E. apply single_digit_spec; lia.
    + apply Z.ltb_ge in E.
      assert (2 ^ (Z.of_nat (S fuel) + 1) = 2 * 2 ^ (Z.of_nat fuel + 1)) as Hp.
      { replace (Z.of_nat (S fuel) + 1) with (Z.succ (Z.of_nat fuel + 1)) by lia.
        apply Z.pow_succ_r. lia. }
      assert (0 < 2 ^ (Z.of_nat fuel + 1)) as Hpos by (apply Z.pow_pos_nonneg; lia).
      assert (0 <= n / 16 < 2 ^ (Z.of_nat fuel + 1)) as Hq.
      { split; [apply Z.div_pos; lia|].
        apply Z.div_lt_upper_bound; lia. }
      assert (1 <= n / 16) as Hq1.
      { apply Z.div_le_lower_bound; lia. }
      destruct (IH _ Hq) as (Hall & Hne & Hfirst & _ & m & Hm).
      assert (0 <= n mod 16 < 16) as Hr by (apply Z.mod_pos_bound; lia).
      destruct (hex_digit_upper Hr) as (Hu & Hv & _ & _).
      cbv zeta. rewrite upper_app. cbn [upper].
      split; [|split; [|split; [|split]]].
      * rewrite string_forall_app, Hall. simpl. now rewrite Hu.
      * now apply app_nonempty.
      * intros _. rewrite first_char_app by assumption. apply Hfirst. lia.
      * intros H0. lia.
      * exists (m * 16). intros acc. rewrite int16_from_app, Hm.
        simpl. rewrite Hv. f_equal.
        pose proof (Z.div_mod n 16). lia.
Qed.

Lemma hex_digits_spec n :
  0 <= n ->
  let s := upper (hex_digits n) in
  unpadded_upper_hex s /\ int16 s = Some n.
Proof.
  intros Hn. unfold hex_digits.
  assert (0 <= n < 2 ^ (Z.of_nat (Z.to_nat (Z.log2 n)) + 1)) as Hb.
  { split; [assumption|]. rewrite Z2Nat.id by apply Z.log2_nonneg.
    destruct (Z.eq_dec n 0) as [->|Hnz]; [reflexivity|].
    replace (Z.log2 n + 1) with (Z.succ (Z.log2 n)) by lia.
    apply Z.log2_spec. lia. }
  destruct (hex_digits_upto_spec _ Hb) as (Hall & Hne & Hfirst & Hzero & m & Hm).
  cbv zeta. set (s := upper (hex_digits_upto (Z.to_nat (Z.log2 n)) n)) in *.
  split.
  - split; [assumption|]. split; [assumption|].
    destruct (Z.eq_dec n 0) as [H0|H0]; [left; auto | right; auto].
  - unfold int16. destruct s eqn:Es; [congruence|].
    rewrite Hm. apply f_equal. lia.
Qed.

Lemma format_codepoint_digits c :
  0 <= c -> ffsmufl.format_codepoint c = "U+" ++ upper (hex_digits c).
Proof.
  intros Hc. unfold ffsmufl.format_codepoint, hex.
  destruct (c <? 0) eqn:E; [apply Z.ltb_lt in E; lia|]. reflexivity.
Qed.

(** C8. For every valid Unicode scalar value [c], [format_codepoint c] is
    ["U+"] followed by the upper-case hexadecimal digits of [c], with no
    ["0x"] prefix and no zero padding, and parsing the result gives [c]
    back; [format_codepoint 57344 = "U+E000"] and
    [format_codepoint 62463 = "U+F3FF"].  The same holds for
    [smufl_codepoint] of ff_smufl_metadata.py. *)
Theorem format_codepoint_roundtrip (c : Z) (Hc : valid_scalar c) :
  (exists digits,
      ffsmufl.format_codepoint c = "U+" ++ digits
      /\ unpadded_upper_hex digits
      /\ int16 digits = Some c)
  /\ parse_codepoint (ffsmufl.format_codepoint c) = Some c
  /\ (forall g, unicode g = c ->
        ff_smufl_metadata.smufl_codepoint g = ffsmufl.format_codepoint c)
  /\ ffsmufl.format_codepoint 57344 = "U+E000"
  /\ ffsmufl.format_codepoint 62463 = "U+F3FF".
Proof.
  destruct Hc as [[Hc0 _] _].
  destruct (hex_digits_spec Hc0) as [Hpad Hint].
  rewrite (format_codepoint_digits Hc0).
  split; [|split; [|split; [|split]]].
  - exists (upper (hex_digits c)). auto.
  - exact Hint.
  - intros g <-. unfold ff_smufl_metadata.smufl_codepoint.
    now rewrite <- format_codepoint_digits.
  - reflexivity.
  - reflexivity.
Qed.

Lemma format_codepoint_roundtrip_witness :
  valid_scalar 57344
  /\ parse_codepoint (ffsmufl.format_codepoint 57344) = Some 57344.
Proof.
  assert (valid_scalar 57344) as H by (unfold valid_scalar; lia).
  split; [exact H|].
  exact (proj1 (proj2 (format_codepoint_roundtrip H))).
Defined.

(** ** [SmuflFont.save] *)

Lemma init_read_only opened mode defaults self :
  ffsmufl.__init__ opened mode defaults = Ok self ->
  ffsmufl.read_only self = String.eqb mode "r".
Proof.
  unfold ffsmufl.__init__, ffsmufl.set_engraving_defaults.
  destruct (negb (is_None defaults) && negb (isinstance_dict defaults));
    [discriminate|].
  intros [= <-]. reflexivity.
Qed.

(** C9. [save] raises [PermissionError] when the font is read-only (it was
    opened with mode ['r']) and no argument is given; the library's [save]
    is then not called and nothing changes.  Otherwise the call is handed
    to the library's [save] with the same arguments, and the outcome is the
    library's own: [save] adds no [PermissionError]. *)
Theorem save_read_only_guard (ff_state : Type)
  (ff_save : list value -> ff_state -> result unit * ff_state)
  (self : ffsmufl.SmuflFont) (args : list value)
  (w : ffsmufl.world ff_state) :
  (forall opened mode defaults,
      ffsmufl.__init__ opened mode defaults = Ok self ->
      (ffsmufl.read_only self = true <-> mode = "r"))
  /\ (ffsmufl.read_only self = true -> args = [] ->
      ffsmufl.save ff_save self args w = (Raise PermissionError, w))
  /\ (ffsmufl.read_only self = false \/ args <> [] ->
      ffsmufl.save ff_save self args w
      = (fst (ff_save args (ffsmufl.ff w)),
         {| ffsmufl.ff := snd (ff_save args (ffsmufl.ff w));
            ffsmufl.calls :=
              (ffsmufl.calls w ++ [ffsmufl.font_save args])%list |})
      /\ (fst (ff_save args (ffsmufl.ff w)) <> Raise PermissionError ->
          fst (ffsmufl.save ff_save self args w) <> Raise PermissionError)).
Proof.
  split; [|split].
  - intros opened mode defaults Hinit.
    rewrite (init_read_only _ _ _ Hinit). apply String.eqb_eq.
  - intros Hro ->. unfold ffsmufl.save. now rewrite Hro.
  - intros Hcase.
    assert (ffsmufl.read_only self && negb (truthy (VTuple args)) = false)
      as Hguard.
    { destruct Hcase as [-> | Hargs]; [reflexivity|].
      destruct args; [contradiction|]. apply andb_false_r. }
    unfold ffsmufl.save. rewrite Hguard.
    destruct (ff_save args (ffsmufl.ff w)) as [r s]. simpl. auto.
Qed.

Lemma save_read_only_guard_witness :
  ffsmufl.save Samples.counting_save Samples.read_only_font []
    Samples.fresh_world
  = (Raise PermissionError, Samples.fresh_world)
  /\ ffsmufl.save Samples.counting_save Samples.read_only_font
       [VStr "copy.sfd"] Samples.fresh_world
     = (Ok tt,
        {| ffsmufl.ff := 1%nat;
           ffsmufl.calls := [ffsmufl.font_save [VStr "copy.sfd"]] |})
  /\ fst (ffsmufl.save Samples.counting_save Samples.writable_font []
            Samples.fresh_world) <> Raise PermissionError.
Proof.
  assert ([VStr "copy.sfd"] <> []) as Hne by discriminate.
  split; [|split].
  - exact (proj1 (proj2 (save_read_only_guard Samples.counting_save
             Samples.read_only_font [] Samples.fresh_world))
             eq_refl eq_refl).
  - exact (proj1 (proj2 (proj2 (save_read_only_guard Samples.counting_save
             Samples.read_only_font [VStr "copy.sfd"] Samples.fresh_world))
             (or_intror Hne))).
  - apply (proj2 (proj2 (proj2 (save_read_only_guard Samples.counting_save
             Samples.writable_font [] Samples.fresh_world))
             (or_introl eq_refl))).
    simpl. discriminate.
Defined.

(** ** Canonical glyph names *)

(** C5, as the code has it.  A codepoint whose formatted key is in the
    table resolves to the table's name in both modules.  For a codepoint
    missing from the table, [smufl_canonical_name] returns the glyph's own
    name when [fallback] is set, and both lookups raise [ValueError], which
    is not a [LookupError], when it is not. *)
Theorem canonical_name_lookup (table : dict string) (g : glyph) :
  (forall name fallback,
      dict_get table (ffsmufl.format_codepoint (unicode g)) = Some name ->
      ffsmufl.canonical_glyphname table (unicode g) fallback = Ok name
      /\ ff_smufl_metadata.smufl_canonical_name table g fallback = Ok name)
  /\ (dict_get table (ffsmufl.format_codepoint (unicode g)) = None ->
      ff_smufl_metadata.smufl_canonical_name table g true
      = Ok (glyphname g)
      /\ ff_smufl_metadata.smufl_canonical_name table g false
         = Raise ValueError
      /\ ffsmufl.canonical_glyphname table (unicode g) false
         = Raise ValueError)
  /\ issubclass ValueError LookupError = false.
Proof.
  unfold ffsmufl.canonical_glyphname, ff_smufl_metadata.smufl_canonical_name,
    ff_smufl_metadata.smufl_codepoint, ffsmufl.format_codepoint.
  split; [|split].
  - intros name fallback ->. auto.
  - intros ->. auto.
  - reflexivity.
Qed.

Lemma canonical_name_lookup_witness :
  ffsmufl.canonical_glyphname Samples.glyphnames 57344 true
  = Ok "noteheadBlack"
  /\ ff_smufl_metadata.smufl_canonical_name Samples.no_glyphnames
       Samples.notehead true = Ok "uniE000".
Proof.
  split.
  - exact (proj1 (proj1 (canonical_name_lookup Samples.glyphnames
                           Samples.notehead) "noteheadBlack" true eq_refl)).
  - exact (proj1 (proj1 (proj2 (canonical_name_lookup Samples.no_glyphnames
                                  Samples.notehead)) eq_refl)).
Defined.

(** With fallback disabled the lookup of a codepoint that is not in the
    table does not fail with a [LookupError]. *)
Lemma canonical_name_miss_not_LookupError :
  ~ (exists e,
        ff_smufl_metadata.smufl_canonical_name Samples.no_glyphnames
          Samples.notehead false = Raise e
        /\ issubclass e LookupError = true)
  /\ ~ (exists e,
        ffsmufl.canonical_glyphname Samples.no_glyphnames 57344 false
        = Raise e
        /\ issubclass e LookupError = true).
Proof.
  split; intros [e [H Hsub]]; vm_compute in H; injection H as <-;
    discriminate.
Qed.

(** ** Loops *)

Section LoopFacts.
Variables A S : Type.
Implicit Types (xs : list A) (body : S -> A -> result S) (s : S).

Lemma for_each_cons_ok x xs body s s' :
  for_each (x :: xs) body s = Ok s' ->
  exists s1, body s x = Ok s1 /\ for_each xs body s1 = Ok s'.
Proof.
  simpl. destruct (body s x) as [s1|e]; simpl; [|discriminate]. eauto.
Qed.

Lemma for_each_app xs ys body s :
  for_each (xs ++ ys)%list body s
  = (s' <- for_each xs body s ;; for_each ys body s').
Proof.
  revert s. induction xs as [|x xs IH]; intros s; simpl; auto.
  destruct (body s x); simpl; auto.
Qed.

Lemma for_each_invariant (P : S -> Prop) xs body s s' :
  (forall s0 x s1, In x xs -> P s0 -> body s0 x = Ok s1 -> P s1) ->
  P s -> for_each xs body s = Ok s' -> P s'.
Proof.
  revert s. induction xs as [|x xs IH]; intros s Hstep Hs Hrun.
  - simpl in Hrun. now injection Hrun as <-.
  - apply for_each_cons_ok in Hrun as (s1 & Hx & Hrest).
    apply (IH s1); auto.
    + intros s0 y s2 Hy. apply Hstep. now right.
    + apply (Hstep s x); auto. now left.
Qed.

Lemma for_each_ext xs body body' s :
  (forall s0 x, In x xs -> body s0 x = body' s0 x) ->
  for_each xs body s = for_each xs body' s.
Proof.
  revert s. induction xs as [|x xs IH]; intros s Hext; simpl; auto.
  rewrite <- Hext by now left.
  destruct (body s x); simpl; auto.
  apply IH. intros s0 y Hy. apply Hext. now right.
Qed.

Lemma for_each_mono xs body body' s s' :
  (forall s0 x s1, In x xs -> body s0 x = Ok s1 -> body' s0 x = Ok s1) ->
  for_each xs body s = Ok s' -> for_each xs body' s = Ok s'.
Proof.
  revert s. induction xs as [|x xs IH]; intros s Hmono Hrun; auto.
  apply for_each_cons_ok in Hrun as (s1 & Hx & Hrest).
  simpl. rewrite (Hmono s x s1) by (auto; now left). simpl.
  apply IH; auto. intros s0 y s2 Hy. apply Hmono. now right.
Qed.

Lemma for_each_total (P : A -> Prop) xs body :
  (forall s x, P x -> exists s', body s x = Ok s') ->
  (forall x, In x xs -> P x) ->
  forall s, exists s', for_each xs body s = Ok s'.
Proof.
  intros Hbody. induction xs as [|x xs IH]; intros Hall s; simpl; eauto.
  destruct (Hbody s x) as [s1 ->]; [apply Hall; now left|]. simpl.
  apply IH. intros y Hy. apply Hall. now right.
Qed.

End LoopFacts.

Lemma last_opt_snoc A (l : list A) x : last_opt (l ++ [x])%list = Some x.
Proof. unfold last_opt. now rewrite rev_unit. Qed.

(** Repeated assignment to one key keeps the last value only. *)
Lemma fold_set_same_key A (f : A -> value) (k : string) (ts : list A)
  (d : dict value) :
  fold_left (fun d t => dict_set d k (f t)) ts d
  = match last_opt ts with
    | None => d
    | Some t => dict_set d k (f t)
    end.
Proof.
  induction ts as [|t ts IH] using rev_ind; [reflexivity|].
  rewrite fold_left_app, last_opt_snoc. simpl. rewrite IH.
  destruct (last_opt ts); [apply dict_set_set | reflexivity].
Qed.

(** ** The four tables *)

Section TablesFacts.

Variable valid_anchor_names : list string.
Variable codepoint_of : glyph -> string.
Variable canonical_name : glyph -> result string.
Variable to_spaces : Q -> Q.

Lemma own_key_keys body chars d0 d :
  own_key_step canonical_name body ->
  for_each chars body d0 = Ok d ->
  forall k, In k (dict_keys d) ->
    In k (dict_keys d0) \/ exists g, In g chars /\ canonical_name g = Ok k.
Proof.
  intros Hstep Hrun.
  apply (for_each_invariant
           (fun d => forall k, In k (dict_keys d) ->
              In k (dict_keys d0)
              \/ exists g, In g chars /\ canonical_name g = Ok k)
           chars body d0); auto.
  intros s0 g s1 Hg IH Hbody k Hk.
  destruct (Hstep _ _ _ Hbody) as [-> | (k' & v & Hname & ->)]; auto.
  apply dict_keys_set in Hk as [-> | Hk]; eauto.
Qed.

Lemma own_key_frame body xs d d' k :
  own_key_step canonical_name body ->
  (forall g, In g xs -> canonical_name g <> Ok k) ->
  for_each xs body d = Ok d' ->
  dict_get d' k = dict_get d k.
Proof.
  intros Hstep Hfree Hrun.
  apply (for_each_invariant (fun d' => dict_get d' k = dict_get d k)
           xs body d); auto.
  intros s0 g s1 Hg IH Hbody.
  destruct (Hstep _ _ _ Hbody) as [-> | (k' & v & Hname & ->)]; auto.
  rewrite dict_get_set_other; auto.
  intros ->. now apply (Hfree g).
Qed.

(** The entry of a glyph whose resolved name no other glyph of the loop
    shares is the one its own step leaves. *)
Lemma own_key_entry body pre g post d k :
  own_key_step canonical_name body ->
  (forall g', In g' (pre ++ post)%list -> canonical_name g' <> Ok k) ->
  for_each (pre ++ g :: post)%list body [] = Ok d ->
  exists d1 d2,
    dict_get d1 k = None /\ body d1 g = Ok d2
    /\ dict_get d k = dict_get d2 k.
Proof.
  intros Hstep Hfree Hrun.
  rewrite for_each_app in Hrun.
  destruct (for_each pre body []) as [d1|e] eqn:Hpre; [|discriminate].
  simpl in Hrun.
  destruct (body d1 g) as [d2|e] eqn:Hg; [|discriminate].
  simpl in Hrun. exists d1, d2. split; [|split]; auto.
  - assert (dict_get d1 k = dict_get [] k) as ->; [|reflexivity].
    apply (@own_key_frame body pre [] d1 k Hstep); auto.
    intros g' Hg'. apply Hfree. apply in_or_app. now left.
  - apply (@own_key_frame body post d2 d k Hstep); auto.
    intros g' Hg'. apply Hfree. apply in_or_app. now right.
Qed.

End TablesFacts.

Section TableSteps.

Variable valid_anchor_names : list string.
Variable codepoint_of : glyph -> string.
Variable canonical_name : glyph -> result string.
Variable to_spaces : Q -> Q.
Variable font_getitem : string -> result glyph.

Lemma anchors_body_own_key :
  own_key_step canonical_name
    (anchors_body valid_anchor_names canonical_name to_spaces).
Proof.
  intros d g d'. unfold anchors_body.
  destruct (dict_bool (char_anchors valid_anchor_names to_spaces g));
    [|intros [= <-]; now left].
  destruct (canonical_name g) as [k|e] eqn:Hk; simpl; [|discriminate].
  intros [= <-]. right. eauto.
Qed.

Lemma alternates_body_own_key :
  own_key_step canonical_name
    (alternates_body codepoint_of canonical_name font_getitem).
Proof.
  intros d g d'. unfold alternates_body.
  destruct (char_alternates codepoint_of canonical_name font_getitem g)
    as [[|r rs]|e]; simpl; [intros [= <-]; now left | | discriminate].
  destruct (canonical_name g) as [k|e] eqn:Hk; simpl; [|discriminate].
  intros [= <-]. right. eauto.
Qed.

Lemma bounding_boxes_body_own_key :
  own_key_step canonical_name (bounding_boxes_body canonical_name to_spaces).
Proof.
  intros d g d'. unfold bounding_boxes_body.
  destruct (canonical_name g) as [k|e] eqn:Hk; simpl; [|discriminate].
  intros [= <-]. right. eauto.
Qed.

(** The inner loop of [ligatures] amounts to one assignment, of the record
    of the last ['Ligature'] table. *)
Lemma ligatures_body_last d g :
  ligatures_body codepoint_of canonical_name d g
  = (char_name <- canonical_name g ;;
     Ok match last_opt (tables_of_type "Ligature" g) with
        | None => d
        | Some table =>
            dict_set d char_name (ligature_record codepoint_of g table)
        end).
Proof.
  unfold ligatures_body. destruct (canonical_name g) as [k|e]; simpl; auto.
  now rewrite fold_set_same_key.
Qed.

Lemma ligatures_body_own_key :
  own_key_step canonical_name (ligatures_body codepoint_of canonical_name).
Proof.
  intros d g d'. rewrite ligatures_body_last.
  destruct (canonical_name g) as [k|e] eqn:Hk; simpl; [|discriminate].
  destruct (last_opt (tables_of_type "Ligature" g));
    intros [= <-]; [right; eauto | now left].
Qed.

(** Every key of a table is the resolved name of a glyph the loop ran
    over. *)
Lemma table_keys_resolved chars d k :
  anchors valid_anchor_names canonical_name to_spaces chars = Ok d
  \/ alternates codepoint_of canonical_name font_getitem chars = Ok d
  \/ bounding_boxes canonical_name to_spaces chars = Ok d
  \/ ligatures codepoint_of canonical_name chars = Ok d ->
  In k (dict_keys d) ->
  exists g, In g chars /\ canonical_name g = Ok k.
Proof.
  intros Hrun Hk.
  assert (In k (dict_keys (@nil (string * value)))
          \/ exists g, In g chars /\ canonical_name g = Ok k) as [[]|H];
    [|exact H].
  destruct Hrun as [H|[H|[H|H]]];
    eapply own_key_keys; try exact H; try exact Hk;
    auto using anchors_body_own_key, alternates_body_own_key,
      bounding_boxes_body_own_key, ligatures_body_own_key.
Qed.

End TableSteps.

(** ** The assembled document *)

Lemma truthy_not_empty v : truthy v = true -> is_empty_container v = false.
Proof. destruct v as [| | | |[|]|[|]|[|]|[|]]; simpl; congruence. Qed.

Lemma dict_bool_nonempty V (d : dict V) : dict_bool d = true <-> d <> [].
Proof. destruct d; simpl; split; congruence. Qed.

Lemma document_get fn fv defaults a al b l :
  dict_get (document fn fv defaults a al b l) "engravingDefaults"
  = (if truthy defaults then Some defaults else None)
  /\ dict_get (document fn fv defaults a al b l) "glyphsWithAnchors"
     = (if dict_bool a then Some (VDict a) else None)
  /\ dict_get (document fn fv defaults a al b l) "glyphsWithAlternates"
     = (if dict_bool al then Some (VDict al) else None)
  /\ dict_get (document fn fv defaults a al b l) "glyphBBoxes"
     = (if dict_bool b then Some (VDict b) else None)
  /\ dict_get (document fn fv defaults a al b l) "ligatures"
     = (if dict_bool l then Some (VDict l) else None).
Proof.
  unfold document.
  destruct (truthy defaults), (dict_bool a), (dict_bool al), (dict_bool b),
    (dict_bool l); repeat split.
Qed.

Lemma document_In fn fv defaults a al b l k v :
  In (k, v) (document fn fv defaults a al b l) ->
  (k = "fontName" /\ v = VStr fn)
  \/ (k = "fontVersion" /\ v = VStr fv)
  \/ (k = "engravingDefaults" /\ v = defaults /\ truthy defaults = true)
  \/ (k = "glyphsWithAnchors" /\ v = VDict a /\ dict_bool a = true)
  \/ (k = "glyphsWithAlternates" /\ v = VDict al /\ dict_bool al = true)
  \/ (k = "glyphBBoxes" /\ v = VDict b /\ dict_bool b = true)
  \/ (k = "ligatures" /\ v = VDict l /\ dict_bool l = true).
Proof.
  unfold document.
  destruct (truthy defaults) eqn:E1, (dict_bool a) eqn:E2,
    (dict_bool al) eqn:E3, (dict_bool b) eqn:E4, (dict_bool l) eqn:E5;
    cbn; intros H;
    repeat (destruct H as [H|H]; [injection H as <- <-; tauto|]);
    destruct H.
Qed.

Lemma document_no_empty_tables fn fv defaults a al b l :
  no_empty_tables (document fn fv defaults a al b l).
Proof.
  intros k v Hk Hin.
  apply document_In in Hin
    as [[-> ->]|[[-> ->]|[(-> & -> & H)|[(-> & -> & H)|[(-> & -> & H)
       |[(-> & -> & H)|(-> & -> & H)]]]]]].
  - simpl in Hk. repeat (destruct Hk as [Hk|Hk]; [discriminate|]).
    contradiction.
  - simpl in Hk. repeat (destruct Hk as [Hk|Hk]; [discriminate|]).
    contradiction.
  - now apply truthy_not_empty.
  - destruct a; [discriminate | reflexivity].
  - destruct al; [discriminate | reflexivity].
  - destruct b; [discriminate | reflexivity].
  - destruct l; [discriminate | reflexivity].
Qed.

Section AssembleFacts.

Variable valid_anchor_names : list string.
Variable codepoint_of : glyph -> string.
Variable canonical_name : glyph -> result string.
Variable to_spaces : Q -> Q.
Variable font_getitem : string -> result glyph.
Variables fontName fontVersion : string.
Variable defaults : value.
Variable chars : list glyph.

Let the_anchors := anchors valid_anchor_names canonical_name to_spaces chars.
Let the_alternates :=
  alternates codepoint_of canonical_name font_getitem chars.
Let the_bounding_boxes := bounding_boxes canonical_name to_spaces chars.
Let the_ligatures := ligatures codepoint_of canonical_name chars.

(** [asdict] computes the four tables in turn and returns the document
    made of them; an exception of any of them is the outcome. *)
Lemma assemble_document :
  assemble valid_anchor_names codepoint_of canonical_name to_spaces
    fontName fontVersion defaults font_getitem chars
  = (a <- the_anchors ;; al <- the_alternates ;;
     b <- the_bounding_boxes ;; l <- the_ligatures ;;
     Ok (document fontName fontVersion defaults a al b l)).
Proof.
  reflexivity.
Qed.

Lemma assemble_ok doc :
  assemble valid_anchor_names codepoint_of canonical_name to_spaces
    fontName fontVersion defaults font_getitem chars = Ok doc ->
  exists a al b l,
    the_anchors = Ok a /\ the_alternates = Ok al
    /\ the_bounding_boxes = Ok b /\ the_ligatures = Ok l
    /\ doc = document fontName fontVersion defaults a al b l.
Proof.
  rewrite assemble_document.
  destruct the_anchors as [a|]; simpl; [|discriminate].
  destruct the_alternates as [al|]; simpl; [|discriminate].
  destruct the_bounding_boxes as [b|]; simpl; [|discriminate].
  destruct the_ligatures as [l|]; simpl; [|discriminate].
  intros [= <-]. exists a, al, b, l. auto.
Qed.

Lemma assemble_omits_empty doc :
  assemble valid_anchor_names codepoint_of canonical_name to_spaces
    fontName fontVersion defaults font_getitem chars = Ok doc ->
  no_empty_tables doc
  /\ (forall v, dict_get doc "engravingDefaults" = Some v
        <-> v = defaults /\ truthy defaults = true)
  /\ present_iff_nonempty doc "glyphsWithAnchors" the_anchors
  /\ present_iff_nonempty doc "glyphsWithAlternates" the_alternates
  /\ present_iff_nonempty doc "glyphBBoxes" the_bounding_boxes
  /\ present_iff_nonempty doc "ligatures" the_ligatures.
Proof.
  intros Hdoc.
  destruct (assemble_ok Hdoc) as (a & al & b & l & Ha & Hal & Hb & Hl & ->).
  destruct (document_get fontName fontVersion defaults a al b l)
    as (Gd & Ga & Gal & Gb & Gl).
  rewrite Ha, Hal, Hb, Hl.
  split; [apply document_no_empty_tables|].
  split.
  { intros v. rewrite Gd. destruct (truthy defaults); split.
    - intros [= <-]. auto.
    - intros [-> _]. reflexivity.
    - discriminate.
    - intros [_ ?]. discriminate. }
  unfold present_iff_nonempty.
  rewrite Ga, Gal, Gb, Gl.
  repeat split;
    match goal with
    | |- context [dict_bool ?t] =>
        destruct t as [|e t'] eqn:Et; simpl;
        [ try discriminate;
          try (intros (t0 & [= <-] & Hne & _); now contradiction Hne)
        | try (intros [= <-]; eexists; repeat split; discriminate);
          try (intros (t0 & [= <-] & _ & ->); reflexivity) ]
    end.
Qed.

Lemma assemble_table_keys doc sub t k :
  assemble valid_anchor_names codepoint_of canonical_name to_spaces
    fontName fontVersion defaults font_getitem chars = Ok doc ->
  In sub glyph_table_keys ->
  dict_get doc sub = Some (VDict t) ->
  In k (dict_keys t) ->
  exists g, In g chars /\ canonical_name g = Ok k.
Proof.
  intros Hdoc Hsub Hget Hk.
  destruct (assemble_ok Hdoc) as (a & al & b & l & Ha & Hal & Hb & Hl & ->).
  destruct (document_get fontName fontVersion defaults a al b l)
    as (_ & Ga & Gal & Gb & Gl).
  assert (t = a \/ t = al \/ t = b \/ t = l
          -> exists g, In g chars /\ canonical_name g = Ok k) as Hres.
  { intros Ht.
    apply (@table_keys_resolved valid_anchor_names codepoint_of
             canonical_name to_spaces font_getitem chars t k); auto.
    fold the_anchors the_alternates the_bounding_boxes the_ligatures.
    rewrite Ha, Hal, Hb, Hl.
    destruct Ht as [-> | [-> | [-> | ->]]]; auto. }
  apply Hres.
  simpl in Hsub. destruct Hsub as [<-|[<-|[<-|[<-|[]]]]].
  - rewrite Ga in Hget. destruct (dict_bool a); [|discriminate].
    injection Hget as <-. auto.
  - rewrite Gal in Hget. destruct (dict_bool al); [|discriminate].
    injection Hget as <-. auto.
  - rewrite Gb in Hget. destruct (dict_bool b); [|discriminate].
    injection Hget as <-. auto.
  - rewrite Gl in Hget. destruct (dict_bool l); [|discriminate].
    injection Hget as <-. auto.
Qed.

End AssembleFacts.

(** ** Anchors of one glyph *)

Section CharAnchors.

Variable valid_anchor_names : list string.
Variable to_spaces : Q -> Q.

Let recognized (a : anchor) : bool :=
  in_tuple (anchor_name a) valid_anchor_names.

Let assign (d : dict value) (a : anchor) : dict value :=
  if in_tuple (anchor_name a) valid_anchor_names
  then dict_set d (anchor_name a)
         (VTuple [VFloat (to_spaces (anchor_x a));
                  VFloat (to_spaces (anchor_y a))])
  else d.

Lemma fold_anchors_bool (l : list anchor) (d : dict value) :
  dict_bool (fold_left assign l d) = dict_bool d || existsb recognized l.
Proof.
  revert d. induction l as [|a l IH]; intros d; simpl.
  - now rewrite orb_false_r.
  - rewrite IH. unfold assign, recognized.
    destruct (in_tuple (anchor_name a) valid_anchor_names); simpl; auto.
    rewrite dict_bool_set. now rewrite orb_true_r.
Qed.

(** A glyph gets an anchors dictionary exactly when one of its anchor
    points has a recognized name. *)
Lemma char_anchors_bool g :
  dict_bool (char_anchors valid_anchor_names to_spaces g)
  = existsb recognized (anchorPoints g).
Proof. unfold char_anchors. apply (fold_anchors_bool (anchorPoints g) []). Qed.

Lemma fold_anchors_keys (l : list anchor) (d : dict value) k :
  In k (dict_keys (fold_left assign l d))
  <-> In k (dict_keys d)
      \/ exists a, In a l /\ anchor_name a = k /\ recognized a = true.
Proof.
  revert d. induction l as [|a l IH]; intros d; simpl.
  - split; [auto | intros [H|(a & [] & _)]; auto].
  - rewrite IH. unfold assign, recognized.
    destruct (in_tuple (anchor_name a) valid_anchor_names) eqn:E.
    + rewrite dict_keys_set. split.
      * intros [[->|H]|(a' & Ha' & Hn & Hr)]; eauto 6.
      * intros [H|(a' & [<-|Ha'] & Hn & Hr)]; eauto 6.
    + split.
      * intros [H|(a' & Ha' & Hn & Hr)]; eauto 6.
      * intros [H|(a' & [<-|Ha'] & Hn & Hr)]; eauto 6.
        congruence.
Qed.

(** The anchors dictionary of a glyph has exactly the recognized names
    among its anchor points as keys. *)
Lemma char_anchors_keys g k :
  In k (dict_keys (char_anchors valid_anchor_names to_spaces g))
  <-> exists a, In a (anchorPoints g) /\ anchor_name a = k
                /\ in_tuple k valid_anchor_names = true.
Proof.
  pose proof (fold_anchors_keys (anchorPoints g) [] k) as H.
  change (fold_left assign (anchorPoints g) [])
    with (char_anchors valid_anchor_names to_spaces g) in H.
  rewrite H. simpl. split.
  - intros [[]|(a & Ha & <- & Hr)]. eauto.
  - intros (a & Ha & <- & Hr). right. eauto.
Qed.

(** Every value of the anchors dictionary is the converted coordinate pair
    of an anchor point of that name. *)
Lemma fold_anchors_values (l : list anchor) (d : dict value) k v :
  dict_get (fold_left assign l d) k = Some v ->
  dict_get d k = Some v
  \/ exists a, In a l /\ anchor_name a = k
       /\ v = VTuple [VFloat (to_spaces (anchor_x a));
                      VFloat (to_spaces (anchor_y a))].
Proof.
  revert d. induction l as [|a l IH]; intros d; simpl; auto.
  intros H. apply IH in H as [H|(a' & Ha' & Hn & Hv)]; [|eauto 6].
  unfold assign in H.
  destruct (in_tuple (anchor_name a) valid_anchor_names); auto.
  destruct (string_dec (anchor_name a) k) as [E|E].
  - subst k. rewrite dict_get_set_same in H. injection H as <-. eauto 6.
  - rewrite dict_get_set_other in H by assumption. auto.
Qed.

Lemma char_anchors_values g k v :
  dict_get (char_anchors valid_anchor_names to_spaces g) k = Some v ->
  exists a, In a (anchorPoints g) /\ anchor_name a = k
    /\ in_tuple k valid_anchor_names = true
    /\ v = VTuple [VFloat (to_spaces (anchor_x a));
                   VFloat (to_spaces (anchor_y a))].
Proof.
  intros H.
  assert (in_tuple k valid_anchor_names = true) as Hk.
  { assert (In k (dict_keys (char_anchors valid_anchor_names to_spaces g)))
      as Hin by (apply dict_get_keys; congruence).
    apply char_anchors_keys in Hin as (a & _ & _ & Hr). exact Hr. }
  change (char_anchors valid_anchor_names to_spaces g)
    with (fold_left assign (anchorPoints g) []) in H.
  apply fold_anchors_values in H as [H|(a & Ha & Hn & Hv)];
    [discriminate|]. eauto 6.
Qed.

Variable canonical_name : glyph -> result string.

(** With no recognized anchor on any glyph the anchors table is empty, and
    no name is resolved. *)
Lemma anchors_none chars :
  (forall g, In g chars -> existsb recognized (anchorPoints g) = false) ->
  anchors valid_anchor_names canonical_name to_spaces chars = Ok [].
Proof.
  unfold anchors. induction chars as [|g chars IH]; intros H; simpl; auto.
  unfold anchors_body at 1. rewrite char_anchors_bool.
  rewrite (H g) by now left. simpl. apply IH.
  intros g' Hg'. apply H. now right.
Qed.

End CharAnchors.

(** ** Glyphs outside the SMuFL range *)

Lemma in_smufl_range_bounds g :
  in_smufl_range g = true <-> 57344 <= unicode g <= 62463.
Proof. unfold in_smufl_range. lia. Qed.

Lemma in_smufl_range_strip g :
  in_smufl_range (strip_outside_glyph g) = in_smufl_range g.
Proof.
  unfold strip_outside_glyph. destruct (in_smufl_range g) eqn:E; auto.
Qed.

Lemma filter_strip_outside f :
  filter in_smufl_range (glyphs (strip_outside f))
  = filter in_smufl_range (glyphs f).
Proof.
  simpl. induction (glyphs f) as [|g gs IH]; simpl; auto.
  rewrite in_smufl_range_strip, IH.
  unfold strip_outside_glyph. now destruct (in_smufl_range g).
Qed.

Lemma getitem_strip_outside f name :
  getitem (strip_outside f) name
  = (g <- getitem f name ;; Ok (strip_outside_glyph g)).
Proof.
  unfold getitem. simpl. induction (glyphs f) as [|g gs IH]; simpl; auto.
  assert (glyphname (strip_outside_glyph g) = glyphname g) as ->.
  { unfold strip_outside_glyph. now destruct (in_smufl_range g). }
  destruct (String.eqb (glyphname g) name); auto.
Qed.

Section StripFacts.

Variable valid_anchor_names : list string.
Variable codepoint_of : glyph -> string.
Variable canonical_name : glyph -> result string.
Variable to_spaces : Q -> Q.

Hypothesis codepoint_of_strip :
  forall g, codepoint_of (strip_outside_glyph g) = codepoint_of g.
Hypothesis canonical_name_strip :
  forall g, canonical_name (strip_outside_glyph g) = canonical_name g.

Lemma char_alternates_strip f char :
  char_alternates codepoint_of canonical_name (getitem (strip_outside f)) char
  = char_alternates codepoint_of canonical_name (getitem f) char.
Proof.
  unfold char_alternates. apply for_each_ext. intros acc table _.
  apply for_each_ext. intros acc' name _.
  rewrite getitem_strip_outside.
  destruct (getitem f name) as [g|e]; simpl; auto.
  now rewrite codepoint_of_strip, canonical_name_strip.
Qed.

(** The anchors, outline and lookups of the glyphs outside the range have
    no effect on the document. *)
Lemma assemble_strip fontName fontVersion defaults f :
  assemble valid_anchor_names codepoint_of canonical_name to_spaces
    fontName fontVersion defaults (getitem (strip_outside f))
    (filter in_smufl_range (glyphs (strip_outside f)))
  = assemble valid_anchor_names codepoint_of canonical_name to_spaces
      fontName fontVersion defaults (getitem f)
      (filter in_smufl_range (glyphs f)).
Proof.
  rewrite !assemble_document, filter_strip_outside.
  assert (alternates codepoint_of canonical_name (getitem (strip_outside f))
            (filter in_smufl_range (glyphs f))
          = alternates codepoint_of canonical_name (getitem f)
              (filter in_smufl_range (glyphs f))) as ->; [|reflexivity].
  unfold alternates. apply for_each_ext. intros d char _.
  unfold alternates_body. now rewrite char_alternates_strip.
Qed.

End StripFacts.

(** ** Claims about the whole document *)

(** C2. The document [asdict] returns binds none of the keys
    [engravingDefaults], [glyphsWithAnchors], [glyphsWithAlternates],
    [glyphBBoxes], [ligatures] to an empty container: each is present
    exactly when its value is non-empty (truthy, for the engraving
    defaults), and a font without recognized anchors gets no
    [glyphsWithAnchors] key.  Stated for [_SmuflMetadata.asdict] of
    ffsmufl.py and [SmuflMetadata.asdict] of ff_smufl_metadata.py. *)
Theorem asdict_omits_empty_tables (table : dict string) :
  (forall (self : ffsmufl.SmuflFont) (doc : dict value),
      ffsmufl.asdict table self = Ok doc ->
      omits_empty_tables doc (ffsmufl._engraving_defaults self)
        (ffsmufl.anchors table self) (ffsmufl.alternates table self)
        (ffsmufl.bounding_boxes table self) (ffsmufl.ligatures table self)
      /\ (no_valid_anchors (ffsmufl.font self) ->
          dict_get doc "glyphsWithAnchors" = None))
  /\ (forall (self : ff_smufl_metadata.SmuflMetadata) (doc : dict value),
      ff_smufl_metadata.asdict table self = Ok doc ->
      omits_empty_tables doc (ff_smufl_metadata.engravingDefaults self)
        (ff_smufl_metadata.glyphsWithAnchors table self)
        (ff_smufl_metadata.glyphsWithAlternates table self)
        (ff_smufl_metadata.glyphBBoxes table self)
        (ff_smufl_metadata.ligatures table self)
      /\ (no_valid_anchors (ff_smufl_metadata.font self) ->
          dict_get doc "glyphsWithAnchors" = None)).
Proof.
  assert (forall doc t, present_iff_nonempty doc "glyphsWithAnchors" t ->
            t = Ok [] -> dict_get doc "glyphsWithAnchors" = None) as Hnone.
  { intros doc t Hp ->.
    destruct (dict_get doc "glyphsWithAnchors") as [v|] eqn:E; auto.
    apply Hp in E as (t0 & [= <-] & Hne & _). now contradiction Hne. }
  split; intros self doc Hdoc.
  - pose proof (@assemble_omits_empty _ _ _ _ _ _ _ _ _ _ Hdoc) as Hom. split; [exact Hom|].
    intros Hno. destruct Hom as (_ & _ & Ha & _).
    apply (Hnone _ _ Ha). apply anchors_none.
    intros g Hg. apply filter_In in Hg as [Hg Hr]. now apply Hno.
  - pose proof (@assemble_omits_empty _ _ _ _ _ _ _ _ _ _ Hdoc) as Hom. split; [exact Hom|].
    intros Hno. destruct Hom as (_ & _ & Ha & _).
    apply (Hnone _ _ Ha). apply anchors_none.
    intros g Hg. apply filter_In in Hg as [Hg Hr]. now apply Hno.
Qed.

Lemma asdict_omits_empty_tables_witness :
  ffsmufl.asdict Samples.glyphnames Samples.writable_font
  = Ok (document "Sebastian" "1.0" VNone
          [("noteheadBlack",
            VDict [("stemUpSE", VTuple [VFloat (4 # 25); VFloat (2 # 5)])])]
          []
          [("noteheadBlack",
            bounding_box_record round_div_250 Samples.notehead)]
          [])
  /\ no_empty_tables
       (document "Sebastian" "1.0" VNone
          [("noteheadBlack",
            VDict [("stemUpSE", VTuple [VFloat (4 # 25); VFloat (2 # 5)])])]
          []
          [("noteheadBlack",
            bounding_box_record round_div_250 Samples.notehead)]
          []).
Proof.
  assert (ffsmufl.asdict Samples.glyphnames Samples.writable_font
          = Ok (document "Sebastian" "1.0" VNone
                  [("noteheadBlack",
                    VDict [("stemUpSE",
                            VTuple [VFloat (4 # 25); VFloat (2 # 5)])])]
                  []
                  [("noteheadBlack",
                    bounding_box_record round_div_250 Samples.notehead)]
                  [])) as H by (vm_compute; reflexivity).
  split; [exact H|].
  exact (proj1 (proj1 (proj1 (asdict_omits_empty_tables Samples.glyphnames)
                         Samples.writable_font _ H))).
Defined.

(** C1. Every key of the tables [glyphsWithAnchors],
    [glyphsWithAlternates], [glyphBBoxes] and [ligatures] of a generated
    document is the resolved name of a glyph of the font whose codepoint
    is in [57344, 62463], and the glyphs outside that range contribute
    nothing: stripping them of their anchors, outline and lookups leaves
    the outcome of [asdict] unchanged. *)
Theorem table_keys_in_smufl_range (table : dict string) :
  (forall (self : ffsmufl.SmuflFont) doc sub t k,
      ffsmufl.asdict table self = Ok doc ->
      In sub glyph_table_keys ->
      dict_get doc sub = Some (VDict t) ->
      In k (dict_keys t) ->
      exists g, In g (glyphs (ffsmufl.font self))
        /\ 57344 <= unicode g <= 62463
        /\ ffsmufl.canonical_glyphname table (unicode g) true = Ok k)
  /\ (forall (self : ff_smufl_metadata.SmuflMetadata) doc sub t k,
      ff_smufl_metadata.asdict table self = Ok doc ->
      In sub glyph_table_keys ->
      dict_get doc sub = Some (VDict t) ->
      In k (dict_keys t) ->
      exists g, In g (glyphs (ff_smufl_metadata.font self))
        /\ 57344 <= unicode g <= 62463
        /\ ff_smufl_metadata.smufl_canonical_name table g true = Ok k)
  /\ (forall self : ffsmufl.SmuflFont,
      ffsmufl.asdict table (strip_outside_SmuflFont self)
      = ffsmufl.asdict table self)
  /\ (forall self : ff_smufl_metadata.SmuflMetadata,
      ff_smufl_metadata.asdict table (strip_outside_SmuflMetadata self)
      = ff_smufl_metadata.asdict table self).
Proof.
  split; [|split; [|split]].
  - intros self doc sub t k Hdoc Hsub Hget Hk.
    destruct (@assemble_table_keys _ _ _ _ _ _ _ _ _ _ _ _ _ Hdoc Hsub Hget Hk)
      as (g & Hg & Hname).
    apply filter_In in Hg as [Hg Hr]. apply in_smufl_range_bounds in Hr.
    exists g. auto.
  - intros self doc sub t k Hdoc Hsub Hget Hk.
    destruct (@assemble_table_keys _ _ _ _ _ _ _ _ _ _ _ _ _ Hdoc Hsub Hget Hk)
      as (g & Hg & Hname).
    apply filter_In in Hg as [Hg Hr]. apply in_smufl_range_bounds in Hr.
    exists g. auto.
  - intros self. unfold ffsmufl.asdict, ffsmufl.__getitem__, ffsmufl.__iter__.
    apply assemble_strip; intros g; unfold strip_outside_glyph;
      now destruct (in_smufl_range g).
  - intros self. unfold ff_smufl_metadata.asdict, ff_smufl_metadata.characters.
    apply assemble_strip; intros g; unfold strip_outside_glyph;
      now destruct (in_smufl_range g).
Qed.

Lemma table_keys_in_smufl_range_witness :
  exists g, In g (glyphs Samples.notehead_font)
    /\ 57344 <= unicode g <= 62463
    /\ ffsmufl.canonical_glyphname Samples.glyphnames (unicode g) true
       = Ok "noteheadBlack".
Proof.
  apply (proj1 (table_keys_in_smufl_range Samples.glyphnames)
           Samples.writable_font
           (document "Sebastian" "1.0" VNone
              [("noteheadBlack",
                VDict [("stemUpSE",
                        VTuple [VFloat (4 # 25); VFloat (2 # 5)])])]
              []
              [("noteheadBlack",
                bounding_box_record round_div_250 Samples.notehead)]
              [])
           "glyphsWithAnchors"
           [("noteheadBlack",
             VDict [("stemUpSE", VTuple [VFloat (4 # 25); VFloat (2 # 5)])])]
           "noteheadBlack").
  - vm_compute. reflexivity.
  - simpl. auto.
  - reflexivity.
  - simpl. auto.
Defined.

(** ** Alternates *)

Section AlternatesFacts.

Variable codepoint_of : glyph -> string.
Variable canonical_name : glyph -> result string.
Variable font_getitem : string -> result glyph.

Let record_of := substitute_record codepoint_of canonical_name font_getitem.

Let inner (acc : list value) (name : string) : result (list value) :=
  substitute_char <- font_getitem name ;;
  let codepoint := codepoint_of substitute_char in
  name <- canonical_name substitute_char ;;
  Ok (acc ++ [alternate_record codepoint name])%list.

Lemma substitutes_loop names acc acc' :
  for_each names inner acc = Ok acc' ->
  exists records,
    acc' = (acc ++ records)%list /\ Forall2 record_of names records.
Proof.
  revert acc. induction names as [|name names IH]; intros acc Hrun.
  - injection Hrun as <-. exists []. rewrite app_nil_r. auto.
  - apply for_each_cons_ok in Hrun as (acc1 & Hstep & Hrest).
    unfold inner in Hstep.
    destruct (font_getitem name) as [sc|e] eqn:Hsc; [|discriminate].
    simpl in Hstep.
    destruct (canonical_name sc) as [n|e] eqn:Hn; [|discriminate].
    injection Hstep as <-.
    destruct (IH _ Hrest) as (records & -> & Hall).
    exists (alternate_record (codepoint_of sc) n :: records).
    rewrite <- app_assoc. split; [reflexivity|].
    constructor; auto. exists sc, n. auto.
Qed.

Lemma substitute_tables_loop tables acc acc' :
  for_each tables
    (fun acc table => for_each (lookup_glyphs table) inner acc) acc
  = Ok acc' ->
  exists records,
    acc' = (acc ++ records)%list
    /\ Forall2 record_of (flat_map lookup_glyphs tables) records.
Proof.
  revert acc. induction tables as [|table tables IH]; intros acc Hrun.
  - injection Hrun as <-. exists []. rewrite app_nil_r. auto.
  - apply for_each_cons_ok in Hrun as (acc1 & Hstep & Hrest).
    apply substitutes_loop in Hstep as (r1 & -> & H1).
    destruct (IH _ Hrest) as (r2 & -> & H2).
    exists (r1 ++ r2)%list. rewrite app_assoc. split; [reflexivity|].
    simpl. now apply Forall2_app.
Qed.

(** The alternates of a glyph are the records of its substitutes, in the
    order the rules list them. *)
Lemma char_alternates_records g records :
  char_alternates codepoint_of canonical_name font_getitem g = Ok records ->
  Forall2 record_of (substitute_names g) records.
Proof.
  intros H. apply substitute_tables_loop in H as (rs & -> & Hall).
  exact Hall.
Qed.

(** The entry of a glyph whose resolved name is its own. *)
Lemma alternates_own_entry pre g post k t :
  (forall g', In g' (pre ++ post)%list -> canonical_name g' <> Ok k) ->
  canonical_name g = Ok k ->
  alternates codepoint_of canonical_name font_getitem
    (pre ++ g :: post)%list = Ok t ->
  exists records,
    Forall2 record_of (substitute_names g) records
    /\ dict_get t k = alternates_entry records.
Proof.
  intros Hfree Hk Hrun.
  destruct (own_key_entry pre g post
              (alternates_body_own_key codepoint_of canonical_name
                 font_getitem) Hfree Hrun)
    as (d1 & d2 & Hd1 & Hbody & ->).
  unfold alternates_body in Hbody.
  destruct (char_alternates codepoint_of canonical_name font_getitem g)
    as [records|e] eqn:Hrec; [|discriminate].
  exists records. split; [now apply char_alternates_records|].
  simpl in Hbody. destruct records as [|r rs].
  - injection Hbody as <-. exact Hd1.
  - rewrite Hk in Hbody. injection Hbody as <-.
    now rewrite dict_get_set_same.
Qed.

End AlternatesFacts.

(** [smufl_canonical_name] with its default [fallback] never raises. *)
Lemma smufl_canonical_name_total (table : dict string) g :
  exists name, ff_smufl_metadata.canonical_name table g = Ok name.
Proof.
  unfold ff_smufl_metadata.canonical_name,
    ff_smufl_metadata.smufl_canonical_name.
  destruct (dict_get table _); eauto.
Qed.

Section AlternatesTotal.

Variable codepoint_of : glyph -> string.
Variable canonical_name : glyph -> result string.
Variable font_getitem : string -> result glyph.

Hypothesis canonical_name_total :
  forall c, exists name, canonical_name c = Ok name.

Lemma char_alternates_total g :
  (forall name, In name (substitute_names g) ->
     exists sc, font_getitem name = Ok sc) ->
  exists records,
    char_alternates codepoint_of canonical_name font_getitem g = Ok records.
Proof.
  intros Hres. unfold char_alternates.
  apply (for_each_total
           (fun tbl => forall name, In name (lookup_glyphs tbl) ->
                         exists sc, font_getitem name = Ok sc)).
  - intros acc tbl Htbl.
    apply (for_each_total (fun name => exists sc, font_getitem name = Ok sc));
      [|exact Htbl].
    intros acc0 name [sc ->]. simpl.
    destruct (canonical_name_total sc) as [n ->]. simpl. eauto.
  - intros tbl Htbl name Hname. apply Hres. unfold substitute_names.
    apply in_flat_map. eauto.
Qed.

(** The alternates table is computed when every substitute a rule names
    is a glyph of the font. *)
Lemma alternates_total chars :
  (forall c name, In c chars -> In name (substitute_names c) ->
     exists sc, font_getitem name = Ok sc) ->
  exists t,
    alternates codepoint_of canonical_name font_getitem chars = Ok t.
Proof.
  intros Hres. unfold alternates.
  apply (for_each_total
           (fun c => forall name, In name (substitute_names c) ->
                       exists sc, font_getitem name = Ok sc)).
  - intros d c Hc. unfold alternates_body.
    destruct (char_alternates_total c Hc) as [records ->]. simpl.
    destruct records as [|r rs]; eauto.
    destruct (canonical_name_total c) as [k ->]. simpl. eauto.
  - intros c Hc name Hname. now apply (Hres c).
Qed.

End AlternatesTotal.

(** C6, as the code has it.  Take a glyph of the SMuFL range whose
    resolved name no other glyph of the range shares, and let the
    alternates table be computed.  If its ['AltSubs'] rules list at least
    one substitute, the table maps the glyph's name to the dictionary
    [{"alternates": records}], where [records] are the [{codepoint, name}]
    dictionaries of the substitutes in the order the rules list them; if
    they list none (in particular with no ['AltSubs'] rule) the name is not
    a key of the table.  ff_smufl_metadata.py computes the table whenever
    every substitute a rule names is a glyph of the font. *)
Theorem alternates_table_entries (table : dict string) :
  (forall (self : ffsmufl.SmuflFont) pre g post k t,
      ffsmufl.__iter__ self = (pre ++ g :: post)%list ->
      (forall g', In g' (pre ++ post)%list ->
         ffsmufl.canonical_name table g' <> Ok k) ->
      ffsmufl.canonical_name table g = Ok k ->
      ffsmufl.alternates table self = Ok t ->
      (exists records,
          Forall2
            (substitute_record ffsmufl.codepoint_of
               (ffsmufl.canonical_name table) (ffsmufl.__getitem__ self))
            (substitute_names g) records
          /\ dict_get t k = alternates_entry records)
      /\ (tables_of_type "AltSubs" g = [] -> dict_get t k = None))
  /\ (forall (self : ff_smufl_metadata.SmuflMetadata) pre g post k t,
      ff_smufl_metadata.characters self = (pre ++ g :: post)%list ->
      (forall g', In g' (pre ++ post)%list ->
         ff_smufl_metadata.canonical_name table g' <> Ok k) ->
      ff_smufl_metadata.canonical_name table g = Ok k ->
      ff_smufl_metadata.glyphsWithAlternates table self = Ok t ->
      (exists records,
          Forall2
            (substitute_record ff_smufl_metadata.smufl_codepoint
               (ff_smufl_metadata.canonical_name table)
               (getitem (ff_smufl_metadata.font self)))
            (substitute_names g) records
          /\ dict_get t k = alternates_entry records)
      /\ (tables_of_type "AltSubs" g = [] -> dict_get t k = None))
  /\ (forall (self : ff_smufl_metadata.SmuflMetadata),
      (forall c name,
          In c (ff_smufl_metadata.characters self) ->
          In name (substitute_names c) ->
          exists sc, getitem (ff_smufl_metadata.font self) name = Ok sc) ->
      exists t, ff_smufl_metadata.glyphsWithAlternates table self = Ok t).
Proof.
  split; [|split]; [| |intros self Hres; apply alternates_total;
                       [apply smufl_canonical_name_total | exact Hres]];
    intros self pre g post k t Hchars Hfree Hk Hrun.
  - unfold ffsmufl.alternates in Hrun. rewrite Hchars in Hrun.
    destruct (@alternates_own_entry _ _ _ _ _ _ _ _ Hfree Hk Hrun)
      as (records & Hrec & Hget).
    split; [eauto|].
    intros Hnone. unfold substitute_names in Hrec. rewrite Hnone in Hrec.
    inversion Hrec; subst. exact Hget.
  - unfold ff_smufl_metadata.glyphsWithAlternates in Hrun.
    rewrite Hchars in Hrun.
    destruct (@alternates_own_entry _ _ _ _ _ _ _ _ Hfree Hk Hrun)
      as (records & Hrec & Hget).
    split; [eauto|].
    intros Hnone. unfold substitute_names in Hrec. rewrite Hnone in Hrec.
    inversion Hrec; subst. exact Hget.
Qed.

Lemma alternates_table_entries_witness :
  exists records,
    Forall2
      (substitute_record ffsmufl.codepoint_of
         (ffsmufl.canonical_name Samples.brace_names)
         (ffsmufl.__getitem__ Samples.brace_SmuflFont))
      (substitute_names Samples.brace) records
    /\ dict_get
         [("brace",
           VDict [("alternates",
                   VList [alternate_record "U+E001" "reversedBrace"])])]
         "brace"
       = alternates_entry records.
Proof.
  assert (forall g', In g' ([] ++ [Samples.reversed_brace])%list ->
            ffsmufl.canonical_name Samples.brace_names g' <> Ok "brace")
    as Hfree.
  { intros g' [<-|[]]. vm_compute. discriminate. }
  exact (proj1 (proj1 (alternates_table_entries Samples.brace_names)
                  Samples.brace_SmuflFont [] Samples.brace
                  [Samples.reversed_brace] "brace" _
                  eq_refl Hfree eq_refl eq_refl)).
Defined.

(** The entry for a glyph with alternates is a dictionary with the key
    ["alternates"], not the bare list of records. *)
Lemma alternates_entry_is_not_a_list :
  ffsmufl.alternates Samples.brace_names Samples.brace_SmuflFont
  = Ok [("brace",
         VDict [("alternates",
                 VList [alternate_record "U+E001" "reversedBrace"])])]
  /\ ff_smufl_metadata.glyphsWithAlternates Samples.brace_names
       Samples.brace_SmuflMetadata
     = Ok [("brace",
            VDict [("alternates",
                    VList [alternate_record "U+E001" "reversedBrace"])])]
  /\ ~ (exists t,
          ffsmufl.alternates Samples.brace_names Samples.brace_SmuflFont
          = Ok t
          /\ dict_get t "brace"
             = Some (VList [alternate_record "U+E001" "reversedBrace"]))
  /\ ~ (exists t,
          ff_smufl_metadata.glyphsWithAlternates Samples.brace_names
            Samples.brace_SmuflMetadata = Ok t
          /\ dict_get t "brace"
             = Some (VList [alternate_record "U+E001" "reversedBrace"])).
Proof.
  split; [reflexivity|]. split; [reflexivity|].
  split; intros (t & Ht & Hget); vm_compute in Ht; injection Ht as <-;
    vm_compute in Hget; discriminate.
Qed.

(** ** Entries of the other tables *)

Section EntryFacts.

Variable valid_anchor_names : list string.
Variable codepoint_of : glyph -> string.
Variable canonical_name : glyph -> result string.
Variable to_spaces : Q -> Q.

Variables pre post : list glyph.
Variable g : glyph.
Variable k : string.

Hypothesis name_not_shared :
  forall g', In g' (pre ++ post)%list -> canonical_name g' <> Ok k.
Hypothesis name_of_g : canonical_name g = Ok k.

(** A glyph is in the anchors table exactly when it has a recognized
    anchor, and then with its anchors dictionary. *)
Lemma anchors_own_entry t :
  anchors valid_anchor_names canonical_name to_spaces
    (pre ++ g :: post)%list = Ok t ->
  dict_get t k
  = if existsb (fun a => in_tuple (anchor_name a) valid_anchor_names)
         (anchorPoints g)
    then Some (VDict (char_anchors valid_anchor_names to_spaces g))
    else None.
Proof.
  intros Hrun.
  destruct (own_key_entry pre g post
              (anchors_body_own_key valid_anchor_names canonical_name
                 to_spaces) name_not_shared Hrun)
    as (d1 & d2 & Hd1 & Hbody & ->).
  unfold anchors_body in Hbody. rewrite char_anchors_bool in Hbody.
  destruct (existsb _ (anchorPoints g)).
  - rewrite name_of_g in Hbody. injection Hbody as <-.
    now rewrite dict_get_set_same.
  - injection Hbody as <-. exact Hd1.
Qed.

(** Every glyph of the loop is in the bounding-box table, with the record
    of its own extents. *)
Lemma bounding_boxes_own_entry t :
  bounding_boxes canonical_name to_spaces (pre ++ g :: post)%list = Ok t ->
  dict_get t k = Some (bounding_box_record to_spaces g).
Proof.
  intros Hrun.
  destruct (own_key_entry pre g post
              (bounding_boxes_body_own_key canonical_name to_spaces)
              name_not_shared Hrun)
    as (d1 & d2 & Hd1 & Hbody & ->).
  unfold bounding_boxes_body in Hbody. rewrite name_of_g in Hbody.
  injection Hbody as <-. now rewrite dict_get_set_same.
Qed.

(** Last write wins: the entry of a glyph in the ligatures table is the
    record of its last ['Ligature'] rule. *)
Lemma ligatures_own_entry t :
  ligatures codepoint_of canonical_name (pre ++ g :: post)%list = Ok t ->
  dict_get t k
  = match last_opt (tables_of_type "Ligature" g) with
    | Some table => Some (ligature_record codepoint_of g table)
    | None => None
    end.
Proof.
  intros Hrun.
  destruct (own_key_entry pre g post
              (ligatures_body_own_key codepoint_of canonical_name)
              name_not_shared Hrun)
    as (d1 & d2 & Hd1 & Hbody & ->).
  rewrite ligatures_body_last, name_of_g in Hbody. simpl in Hbody.
  injection Hbody as <-.
  destruct (last_opt (tables_of_type "Ligature" g)); auto.
  now rewrite dict_get_set_same.
Qed.

End EntryFacts.

(** ** The two name lookups compared *)

Section Agreement.

Variable table : dict string.

Lemma canonical_name_agree g name :
  ffsmufl.canonical_name table g = Ok name ->
  ff_smufl_metadata.canonical_name table g = Ok name.
Proof.
  unfold ffsmufl.canonical_name, ffsmufl.canonical_glyphname,
    ff_smufl_metadata.canonical_name, ff_smufl_metadata.smufl_canonical_name,
    ff_smufl_metadata.smufl_codepoint, ffsmufl.format_codepoint.
  destruct (dict_get table _); [auto | discriminate].
Qed.

(** Hence [glyphBBoxes] and [ligatures] of ff_smufl_metadata.py always
    return a table. *)
Lemma glyphBBoxes_total self :
  exists t, ff_smufl_metadata.glyphBBoxes table self = Ok t.
Proof.
  unfold ff_smufl_metadata.glyphBBoxes, bounding_boxes.
  generalize (@nil (string * value)).
  induction (ff_smufl_metadata.characters self) as [|g gs IH]; intros d;
    simpl; eauto.
  unfold bounding_boxes_body at 1.
  destruct (smufl_canonical_name_total table g) as [name ->]. simpl.
  apply IH.
Qed.

Lemma ligatures_total self :
  exists t, ff_smufl_metadata.ligatures table self = Ok t.
Proof.
  unfold ff_smufl_metadata.ligatures, ligatures.
  generalize (@nil (string * value)).
  induction (ff_smufl_metadata.characters self) as [|g gs IH]; intros d;
    simpl; eauto.
  unfold ligatures_body at 1.
  destruct (smufl_canonical_name_total table g) as [name ->]. simpl.
  apply IH.
Qed.

(** Whenever ffsmufl.py returns a document, ff_smufl_metadata.py returns
    the same one for the same font and engraving defaults. *)
Lemma ffsmufl_asdict_refines (self : ffsmufl.SmuflFont) doc :
  ffsmufl.asdict table self = Ok doc ->
  ff_smufl_metadata.asdict table
    {| ff_smufl_metadata.font := ffsmufl.font self;
       ff_smufl_metadata.engravingDefaults :=
         ffsmufl._engraving_defaults self |}
  = Ok doc.
Proof.
  unfold ffsmufl.asdict, ff_smufl_metadata.asdict,
    ff_smufl_metadata.characters, ffsmufl.__iter__, ffsmufl.__getitem__,
    ffsmufl.engraving_defaults.
  cbn [ff_smufl_metadata.font ff_smufl_metadata.engravingDefaults].
  set (chars := filter in_smufl_range (glyphs (ffsmufl.font self))).
  intros Hdoc.
  destruct (@assemble_ok _ _ _ _ _ _ _ _ _ _ Hdoc)
    as (a & al & b & l & Ha & Hal & Hb & Hl & ->).
  rewrite assemble_document.
  assert (forall d0 ch d1,
            anchors_body ffsmufl.valid_anchor_names
              (ffsmufl.canonical_name table) ffsmufl.em_to_spaces d0 ch
            = Ok d1 ->
            anchors_body ff_smufl_metadata.SMUFL_ANCHOR_NAMES
              (ff_smufl_metadata.canonical_name table)
              ff_smufl_metadata.to_spaces d0 ch = Ok d1) as Sa.
  { intros d0 ch d1. unfold anchors_body.
    change ff_smufl_metadata.SMUFL_ANCHOR_NAMES
      with ffsmufl.valid_anchor_names.
    change ff_smufl_metadata.to_spaces with ffsmufl.em_to_spaces.
    destruct (dict_bool _); auto.
    destruct (ffsmufl.canonical_name table ch) as [n|] eqn:E;
      [|discriminate].
    now rewrite (canonical_name_agree _ E). }
  assert (forall ch rs,
            char_alternates ffsmufl.codepoint_of
              (ffsmufl.canonical_name table) (getitem (ffsmufl.font self)) ch
            = Ok rs ->
            char_alternates ff_smufl_metadata.smufl_codepoint
              (ff_smufl_metadata.canonical_name table)
              (getitem (ffsmufl.font self)) ch = Ok rs) as Sc.
  { intros ch rs. unfold char_alternates.
    apply for_each_mono. intros acc tbl acc1 _.
    apply for_each_mono. intros acc' name acc2 _.
    destruct (getitem (ffsmufl.font self) name) as [sc|]; [|discriminate].
    simpl.
    destruct (ffsmufl.canonical_name table sc) as [n|] eqn:E;
      [|discriminate].
    now rewrite (canonical_name_agree _ E). }
  assert (forall d0 ch d1,
            alternates_body ffsmufl.codepoint_of
              (ffsmufl.canonical_name table) (getitem (ffsmufl.font self))
              d0 ch = Ok d1 ->
            alternates_body ff_smufl_metadata.smufl_codepoint
              (ff_smufl_metadata.canonical_name table)
              (getitem (ffsmufl.font self)) d0 ch = Ok d1) as Sal.
  { intros d0 ch d1. unfold alternates_body.
    destruct (char_alternates ffsmufl.codepoint_of _ _ ch) as [rs|] eqn:E;
      [|discriminate].
    rewrite (Sc _ _ E). simpl. destruct rs; auto.
    destruct (ffsmufl.canonical_name table ch) as [n|] eqn:E';
      [|discriminate].
    now rewrite (canonical_name_agree _ E'). }
  assert (forall d0 ch d1,
            bounding_boxes_body (ffsmufl.canonical_name table)
              ffsmufl.em_to_spaces d0 ch = Ok d1 ->
            bounding_boxes_body (ff_smufl_metadata.canonical_name table)
              ff_smufl_metadata.to_spaces d0 ch = Ok d1) as Sb.
  { intros d0 ch d1. unfold bounding_boxes_body.
    destruct (ffsmufl.canonical_name table ch) as [n|] eqn:E;
      [|discriminate].
    now rewrite (canonical_name_agree _ E). }
  assert (forall d0 ch d1,
            ligatures_body ffsmufl.codepoint_of
              (ffsmufl.canonical_name table) d0 ch = Ok d1 ->
            ligatures_body ff_smufl_metadata.smufl_codepoint
              (ff_smufl_metadata.canonical_name table) d0 ch = Ok d1) as Sl.
  { intros d0 ch d1. unfold ligatures_body.
    destruct (ffsmufl.canonical_name table ch) as [n|] eqn:E;
      [|discriminate].
    now rewrite (canonical_name_agree _ E). }
  assert (anchors ff_smufl_metadata.SMUFL_ANCHOR_NAMES
            (ff_smufl_metadata.canonical_name table)
            ff_smufl_metadata.to_spaces chars = Ok a) as Ga.
  { unfold anchors in *. eapply for_each_mono; [|exact Ha]. auto. }
  assert (alternates ff_smufl_metadata.smufl_codepoint
            (ff_smufl_metadata.canonical_name table)
            (getitem (ffsmufl.font self)) chars = Ok al) as Gal.
  { unfold alternates in *. eapply for_each_mono; [|exact Hal]. auto. }
  assert (bounding_boxes (ff_smufl_metadata.canonical_name table)
            ff_smufl_metadata.to_spaces chars = Ok b) as Gb.
  { unfold bounding_boxes in *. eapply for_each_mono; [|exact Hb]. auto. }
  assert (ligatures ff_smufl_metadata.smufl_codepoint
            (ff_smufl_metadata.canonical_name table) chars = Ok l) as Gl.
  { unfold ligatures in *. eapply for_each_mono; [|exact Hl]. auto. }
  rewrite Ga, Gal, Gb, Gl. reflexivity.
Qed.

(** [SmuflMetadata.asdict] of ff-smufl.py is [_SmuflMetadata.asdict] of
    ffsmufl.py on the same font and defaults. *)
Lemma ff_smufl_asdict_same (self : ffsmufl.SmuflFont) :
  ff_smufl.asdict table
    {| ff_smufl.metadata_font :=
         {| ff_smufl.font := ffsmufl.font self;
            ff_smufl.read_only := ffsmufl.read_only self;
            ff_smufl._engraving_defaults := ffsmufl._engraving_defaults self |};
       ff_smufl.engraving_defaults := ffsmufl._engraving_defaults self |}
  = ffsmufl.asdict table self.
Proof. reflexivity. Qed.

End Agreement.

(** ** Codepoints the table does not name, in ffsmufl.py *)

Section MissingNames.

Variable table : dict string.

Lemma canonical_name_miss g :
  dict_get table (ffsmufl.format_codepoint (unicode g)) = None ->
  ffsmufl.canonical_name table g = Raise NameError.
Proof.
  unfold ffsmufl.canonical_name, ffsmufl.canonical_glyphname.
  now intros ->.
Qed.

Lemma canonical_name_ok_or_NameError g :
  (exists name, ffsmufl.canonical_name table g = Ok name)
  \/ ffsmufl.canonical_name table g = Raise NameError.
Proof.
  unfold ffsmufl.canonical_name, ffsmufl.canonical_glyphname.
  destruct (dict_get table _); eauto.
Qed.

(** [bounding_boxes] and [ligatures] resolve the name of every glyph of
    the range, so one glyph whose codepoint the table does not name makes
    them raise [NameError] instead of returning a table. *)
Lemma bounding_boxes_miss (self : ffsmufl.SmuflFont) g :
  In g (ffsmufl.__iter__ self) ->
  dict_get table (ffsmufl.format_codepoint (unicode g)) = None ->
  ffsmufl.bounding_boxes table self = Raise NameError.
Proof.
  unfold ffsmufl.bounding_boxes, bounding_boxes.
  generalize (@nil (string * value)).
  induction (ffsmufl.__iter__ self) as [|c cs IH]; intros d Hin Hmiss;
    [contradiction|].
  simpl. unfold bounding_boxes_body at 1.
  destruct (canonical_name_ok_or_NameError c) as [[name Hc]|Hc];
    rewrite Hc; simpl; auto.
  destruct Hin as [->|Hin]; [|now apply IH].
  rewrite (canonical_name_miss _ Hmiss) in Hc. discriminate.
Qed.


End MissingNames.

(** ** The font with a glyph at U+F3FF *)

(** C3.  On the font of the scenario (one glyph at 57344, named
    [noteheadBlack] by the table, anchor [stemUpSE] at [(40, 100)], no
    lookups) ffsmufl.py returns the anchors table
    [{"noteheadBlack": {"stemUpSE": (0.16, 0.4)}}] and a document without
    the keys [glyphsWithAlternates] and [ligatures].  On a font that also
    has a glyph at U+F3FF with the recognized anchor [stemUpSE], a
    codepoint the table does not name, [anchors] of ffsmufl.py raises
    [NameError] and includes no glyph, while [glyphsWithAnchors] of
    ff_smufl_metadata.py includes it under its own name and drops its
    unrecognized anchor. *)
Theorem anchors_of_unnamed_glyph :
  ffsmufl.anchors Samples.glyphnames Samples.writable_font
  = Ok [("noteheadBlack",
         VDict [("stemUpSE", VTuple [VFloat (4 # 25); VFloat (2 # 5)])])]
  /\ ffsmufl.asdict Samples.glyphnames Samples.writable_font
     = Ok [("fontName", VStr "Sebastian"); ("fontVersion", VStr "1.0");
           ("glyphsWithAnchors",
            VDict [("noteheadBlack",
                    VDict [("stemUpSE",
                            VTuple [VFloat (4 # 25); VFloat (2 # 5)])])]);
           ("glyphBBoxes",
            VDict [("noteheadBlack",
                    bounding_box_record round_div_250 Samples.notehead)])]
  /\ in_smufl_range Samples.private_glyph = true
  /\ has_valid_anchor Samples.private_glyph = true
  /\ ffsmufl.anchors Samples.glyphnames Samples.private_SmuflFont
     = Raise NameError
  /\ ff_smufl_metadata.glyphsWithAnchors Samples.glyphnames
       Samples.private_SmuflMetadata
     = Ok [("noteheadBlack",
            VDict [("stemUpSE", VTuple [VFloat (4 # 25); VFloat (2 # 5)])]);
           ("uniF3FF",
            VDict [("stemUpSE", VTuple [VFloat (4 # 25); VFloat (2 # 5)])])].
Proof. repeat split; vm_compute; reflexivity. Qed.

(** C4.  The glyph at U+F3FF is in the SMuFL range, yet
    [bounding_boxes] of ffsmufl.py raises [NameError] on its font and
    returns no table, while [glyphBBoxes] of ff_smufl_metadata.py maps
    every glyph of the range to its [bBoxNE]/[bBoxSW] record. *)
Theorem bounding_boxes_of_unnamed_glyph :
  in_smufl_range Samples.private_glyph = true
  /\ ffsmufl.bounding_boxes Samples.glyphnames Samples.private_SmuflFont
     = Raise NameError
  /\ ff_smufl_metadata.glyphBBoxes Samples.glyphnames
       Samples.private_SmuflMetadata
     = Ok [("noteheadBlack",
            VDict [("bBoxNE", VTuple [VFloat (59 # 50); VFloat (1 # 2)]);
                   ("bBoxSW", VTuple [VFloat (0 # 1); VFloat (- 1 # 2)])]);
           ("uniF3FF",
            VDict [("bBoxNE", VTuple [VFloat (59 # 50); VFloat (1 # 2)]);
                   ("bBoxSW", VTuple [VFloat (0 # 1); VFloat (- 1 # 2)])])].
Proof. repeat split; vm_compute; reflexivity. Qed.

(** C7.  Where the table names the glyph, the ligatures entry holds the
    components of the last of its two ['Ligature'] rules and its
    codepoint.  When the table does not name the other glyph of that
    font, or for the glyph at U+F3FF, which has two such rules,
    [ligatures] of ffsmufl.py raises [NameError] and there is no entry;
    ff_smufl_metadata.py has the entry of the last rule. *)
Theorem ligatures_of_unnamed_glyph :
  ffsmufl.ligatures Samples.brace_names Samples.brace_SmuflFont
  = Ok [("brace",
         VDict [("codepoint", VStr "U+E000");
                ("componentGlyphs", VList [VStr "uniE004"; VStr "uniE005"])])]
  /\ ffsmufl.ligatures Samples.brace_only_names Samples.brace_SmuflFont
     = Raise NameError
  /\ ff_smufl_metadata.ligatures Samples.brace_only_names
       Samples.brace_SmuflMetadata
     = Ok [("brace",
            VDict [("codepoint", VStr "U+E000");
                   ("componentGlyphs",
                    VList [VStr "uniE004"; VStr "uniE005"])])]
  /\ length (tables_of_type "Ligature" Samples.private_glyph) = 2%nat
  /\ ffsmufl.ligatures Samples.glyphnames Samples.private_SmuflFont
     = Raise NameError
  /\ ff_smufl_metadata.ligatures Samples.glyphnames
       Samples.private_SmuflMetadata
     = Ok [("uniF3FF",
            VDict [("codepoint", VStr "U+F3FF");
                   ("componentGlyphs",
                    VList [VStr "uniE004"; VStr "uniE005"])])].
Proof. repeat split; vm_compute; reflexivity. Qed.

(** C10.  On the font with the glyph at U+F3FF the three implementations
    do not agree: [asdict] of ffsmufl.py and of ff-smufl.py raise
    [NameError], [asdict] of ff_smufl_metadata.py returns a document.  On
    the font of the scenario all three return the same document. *)
Theorem asdict_implementations_differ :
  ffsmufl.asdict Samples.glyphnames Samples.private_SmuflFont
  = Raise NameError
  /\ ff_smufl.asdict Samples.glyphnames Samples.private_ff_smufl
     = Raise NameError
  /\ (exists doc,
        ff_smufl_metadata.asdict Samples.glyphnames
          Samples.private_SmuflMetadata = Ok doc
        /\ dict_keys doc
           = ["fontName"; "fontVersion"; "glyphsWithAnchors"; "glyphBBoxes";
              "ligatures"])
  /\ ff_smufl_metadata.asdict Samples.glyphnames
       Samples.notehead_SmuflMetadata
     = ffsmufl.asdict Samples.glyphnames Samples.writable_font
  /\ ff_smufl.asdict Samples.glyphnames Samples.notehead_ff_smufl
     = ffsmufl.asdict Samples.glyphnames Samples.writable_font.
Proof.
  split; [vm_compute; reflexivity|].
  split; [vm_compute; reflexivity|].
  split; [eexists; split; vm_compute; reflexivity|].
  split; vm_compute; reflexivity.
Qed.

(** ** ff_smufl_metadata.py on every font

    With [smufl_canonical_name] the tables are computed for every font; for
    a glyph whose resolved name no other glyph of the range shares, the
    entries are those of the glyph itself. *)

Lemma glyphsWithAnchors_total (table : dict string)
  (self : ff_smufl_metadata.SmuflMetadata) :
  exists t, ff_smufl_metadata.glyphsWithAnchors table self = Ok t.
Proof.
  unfold ff_smufl_metadata.glyphsWithAnchors, anchors.
  generalize (@nil (string * value)).
  induction (ff_smufl_metadata.characters self) as [|c cs IH]; intros d;
    simpl; eauto.
  unfold anchors_body at 1.
  destruct (dict_bool _); simpl; [|apply IH].
  destruct (smufl_canonical_name_total table c) as [name ->]. simpl.
  apply IH.
Qed.

Section MetadataEntries.

Variable table : dict string.
Variable self : ff_smufl_metadata.SmuflMetadata.
Variables pre post : list glyph.
Variable g : glyph.

Hypothesis chars_split :
  ff_smufl_metadata.characters self = (pre ++ g :: post)%list.
Hypothesis name_not_shared :
  forall g', In g' (pre ++ post)%list ->
    ff_smufl_metadata.canonical_name table g'
    <> ff_smufl_metadata.canonical_name table g.

Lemma glyphsWithAnchors_entry :
  exists t k,
    ff_smufl_metadata.glyphsWithAnchors table self = Ok t
    /\ ff_smufl_metadata.canonical_name table g = Ok k
    /\ dict_get t k
       = if has_valid_anchor g
         then Some (VDict (char_anchors ff_smufl_metadata.SMUFL_ANCHOR_NAMES
                             ff_smufl_metadata.to_spaces g))
         else None.
Proof.
  destruct (glyphsWithAnchors_total table self) as [t Ht].
  destruct (smufl_canonical_name_total table g) as [k Hk].
  exists t, k. split; [exact Ht|]. split; [exact Hk|].
  unfold ff_smufl_metadata.glyphsWithAnchors in Ht.
  rewrite chars_split in Ht.
  apply (@anchors_own_entry ff_smufl_metadata.SMUFL_ANCHOR_NAMES
           (ff_smufl_metadata.canonical_name table)
           ff_smufl_metadata.to_spaces pre post g k); auto.
  intros g' Hg'. rewrite <- Hk. now apply name_not_shared.
Qed.

Lemma glyphBBoxes_entry :
  exists t k,
    ff_smufl_metadata.glyphBBoxes table self = Ok t
    /\ ff_smufl_metadata.canonical_name table g = Ok k
    /\ dict_get t k
       = Some (bounding_box_record ff_smufl_metadata.to_spaces g).
Proof.
  destruct (glyphBBoxes_total table self) as [t Ht].
  destruct (smufl_canonical_name_total table g) as [k Hk].
  exists t, k. split; [exact Ht|]. split; [exact Hk|].
  unfold ff_smufl_metadata.glyphBBoxes in Ht. rewrite chars_split in Ht.
  apply (@bounding_boxes_own_entry (ff_smufl_metadata.canonical_name table)
           ff_smufl_metadata.to_spaces pre post g k); auto.
  intros g' Hg'. rewrite <- Hk. now apply name_not_shared.
Qed.

Lemma ligatures_entry :
  exists t k,
    ff_smufl_metadata.ligatures table self = Ok t
    /\ ff_smufl_metadata.canonical_name table g = Ok k
    /\ dict_get t k
       = match last_opt (tables_of_type "Ligature" g) with
         | Some rule =>
             Some (ligature_record ff_smufl_metadata.smufl_codepoint g rule)
         | None => None
         end.
Proof.
  destruct (ligatures_total table self) as [t Ht].
  destruct (smufl_canonical_name_total table g) as [k Hk].
  exists t, k. split; [exact Ht|]. split; [exact Hk|].
  unfold ff_smufl_metadata.ligatures in Ht. rewrite chars_split in Ht.
  apply (@ligatures_own_entry ff_smufl_metadata.smufl_codepoint
           (ff_smufl_metadata.canonical_name table) pre post g k); auto.
  intros g' Hg'. rewrite <- Hk. now apply name_not_shared.
Qed.

End MetadataEntries.

(** * Further properties of the scripts *)

(** ** Codepoint strings *)

Lemma format_codepoint_eq_inv (a b : Z) :
  0 <= a -> 0 <= b ->
  ffsmufl.format_codepoint a = ffsmufl.format_codepoint b -> a = b.
Proof.
  intros Ha Hb. rewrite !format_codepoint_digits by assumption.
  intros [= E].
  destruct (hex_digits_spec Ha) as [_ Hia].
  destruct (hex_digits_spec Hb) as [_ Hib].
  rewrite E in Hia. rewrite Hia in Hib. now injection Hib.
Qed.



Lemma int16_X digits : int16 (String "X" digits) = None.
Proof. reflexivity. Qed.

(** X2. A negative codepoint, such as the [-1] fontforge gives an
    unencoded glyph, is formatted from [hex]'s ["-0x..."]: the slice [2:]
    keeps the [x], so the result is ["U+X"] followed by the digits of the
    absolute value; it does not read back as a codepoint.  A table whose
    keys all read back as codepoints therefore never names such a glyph:
    [smufl_canonical_name] falls back to the glyph's own name and
    [canonical_glyphname] of ffsmufl.py raises [NameError]. *)
Theorem format_codepoint_negative (table : dict string) (g : glyph) :
  unicode g < 0 ->
  ffsmufl.format_codepoint (unicode g)
  = "U+X" ++ upper (hex_digits (- unicode g))
  /\ parse_codepoint (ff_smufl_metadata.smufl_codepoint g) = None
  /\ ((forall key, In key (dict_keys table) -> parse_codepoint key <> None) ->
      ff_smufl_metadata.smufl_canonical_name table g true
      = Ok (glyphname g)
      /\ ffsmufl.canonical_glyphname table (unicode g) true
         = Raise NameError).
Proof.
  intros Hneg.
  assert (ffsmufl.format_codepoint (unicode g)
          = "U+X" ++ upper (hex_digits (- unicode g))) as Hfmt.
  { unfold ffsmufl.format_codepoint, hex.
    destruct (unicode g <? 0) eqn:E; [reflexivity|].
    apply Z.ltb_ge in E. lia. }
  assert (parse_codepoint (ffsmufl.format_codepoint (unicode g)) = None)
    as Hparse by (rewrite Hfmt; reflexivity).
  split; [exact Hfmt|]. split; [exact Hparse|].
  intros Hkeys.
  assert (dict_get table (ffsmufl.format_codepoint (unicode g)) = None)
    as Hmiss.
  { destruct (dict_get table _) as [name|] eqn:E; auto.
    exfalso. apply (Hkeys (ffsmufl.format_codepoint (unicode g))); auto.
    apply dict_get_keys. congruence. }
  unfold ff_smufl_metadata.smufl_canonical_name,
    ff_smufl_metadata.smufl_codepoint, ffsmufl.canonical_glyphname.
  change ("U+" ++ upper (slice_from 2 (hex (unicode g))))
    with (ffsmufl.format_codepoint (unicode g)).
  rewrite Hmiss. auto.
Qed.

(** ** Unit conversion *)





Lemma round_half_even_mono (q q' : Q) :
  (q <= q')%Q -> round_half_even q <= round_half_even q'.
Proof.
  intros H. pose proof (Qfloor_resp_le _ _ H) as Hf.
  pose proof (Qfloor_le q) as L1. pose proof (Qlt_floor q) as U1.
  pose proof (Qfloor_le q') as L2. pose proof (Qlt_floor q') as U2.
  rewrite inject_Z_plus in U1, U2.
  unfold round_half_even.
  destruct (Z.eq_dec (Qfloor q) (Qfloor q')) as [Ef|Nf].
  - rewrite <- Ef in *.
    destruct (Qcompare_spec (q - inject_Z (Qfloor q)) (1 # 2));
      destruct (Qcompare_spec (q' - inject_Z (Qfloor q)) (1 # 2));
      destruct (Z.even (Qfloor q)); try lia; exfalso; lra.
  - destruct (Qcompare_spec (q - inject_Z (Qfloor q)) (1 # 2));
      destruct (Qcompare_spec (q' - inject_Z (Qfloor q')) (1 # 2));
      destruct (Z.even (Qfloor q)); destruct (Z.even (Qfloor q')); lia.
Qed.

Lemma round_div_250_unfold (em : Q) :
  round_div_250 em
  = Qred (inject_Z (round_half_even (em / (250 # 1) * (1000 # 1)))
          / (1000 # 1)).
Proof. reflexivity. Qed.



(** X5. The conversion keeps the order of its arguments, so the converted
    south-west corner of a bounding box never lies beyond the converted
    north-east corner when the raw extents are in order. *)
Theorem em_to_spaces_monotone (x y : Q) :
  (x <= y)%Q ->
  (ffsmufl.em_to_spaces x <= ffsmufl.em_to_spaces y)%Q
  /\ (ff_smufl_metadata.to_spaces x <= ff_smufl_metadata.to_spaces y)%Q.
Proof.
  intros Hxy.
  assert (round_div_250 x <= round_div_250 y)%Q as H.
  { rewrite !round_div_250_unfold, !Qred_correct.
    assert (x / (250 # 1) * (1000 # 1) <= y / (250 # 1) * (1000 # 1))%Q
      as Hs.
    { unfold Qdiv. apply Qmult_le_compat_r; [|discriminate].
      apply Qmult_le_compat_r; [exact Hxy | discriminate]. }
    apply round_half_even_mono in Hs. rewrite Zle_Qle in Hs.
    apply Qmult_le_compat_r; [exact Hs | discriminate]. }
  split; exact H.
Qed.

Lemma em_to_spaces_monotone_witness :
  (0 # 1 <= 295 # 1)%Q
  /\ (ffsmufl.em_to_spaces (0 # 1) <= ffsmufl.em_to_spaces (295 # 1))%Q.
Proof.
  assert (0 # 1 <= 295 # 1)%Q as H by (unfold Qle; simpl; lia).
  split; [exact H|]. exact (proj1 (em_to_spaces_monotone H)).
Defined.

Lemma format_codepoint_negative_witness :
  unicode Fixtures.unencoded < 0
  /\ ffsmufl.format_codepoint (unicode Fixtures.unencoded) = "U+X1"
  /\ ff_smufl_metadata.smufl_canonical_name Samples.brace_names
       Fixtures.unencoded true = Ok "noteheadBlack.alt".
Proof.
  assert (unicode Fixtures.unencoded < 0) as H by (simpl; lia).
  assert (forall key, In key (dict_keys Samples.brace_names) ->
            parse_codepoint key <> None) as Hkeys.
  { intros key [<-|[<-|[]]]; discriminate. }
  split; [exact H|]. split.
  - exact (proj1 (format_codepoint_negative Samples.brace_names
                    Fixtures.unencoded H)).
  - exact (proj1 (proj2 (proj2 (format_codepoint_negative Samples.brace_names
                                  Fixtures.unencoded H)) Hkeys)).
Defined.

(** ** Keys of the document and of its tables *)

Lemma dict_keys_set_absent V (d : dict V) k v :
  ~ In k (dict_keys d) ->
  dict_keys (dict_set d k v) = (dict_keys d ++ [k])%list.
Proof.
  unfold dict_keys. induction d as [|[k0 v0] d IH]; simpl; auto.
  intros Hnot. destruct (String.eqb k0 k) eqn:E.
  - apply String.eqb_eq in E. subst. exfalso. apply Hnot. now left.
  - simpl. f_equal. apply IH. intros H. apply Hnot. now right.
Qed.






Lemma document_keys fn fv defaults a al b l :
  dict_keys (document fn fv defaults a al b l)
  = ("fontName" :: "fontVersion"
     :: (if truthy defaults then ["engravingDefaults"] else [])
     ++ (if dict_bool a then ["glyphsWithAnchors"] else [])
     ++ (if dict_bool al then ["glyphsWithAlternates"] else [])
     ++ (if dict_bool b then ["glyphBBoxes"] else [])
     ++ (if dict_bool l then ["ligatures"] else []))%list.
Proof.
  unfold document.
  destruct (truthy defaults), (dict_bool a), (dict_bool al), (dict_bool b),
    (dict_bool l); reflexivity.
Qed.

Section DocumentKeys.

Variable valid_anchor_names : list string.
Variable codepoint_of : glyph -> string.
Variable canonical_name : glyph -> result string.
Variable to_spaces : Q -> Q.
Variable font_getitem : string -> result glyph.
Variables fontName fontVersion : string.
Variable defaults : value.
Variable chars : list glyph.
Variable doc : dict value.

Hypothesis asdict_returns :
  assemble valid_anchor_names codepoint_of canonical_name to_spaces
    fontName fontVersion defaults font_getitem chars = Ok doc.

Lemma assemble_key_order :
  dict_keys doc
  = filter (fun key => match dict_get doc key with
                       | Some _ => true
                       | None => false
                       end)
      ["fontName"; "fontVersion"; "engravingDefaults"; "glyphsWithAnchors";
       "glyphsWithAlternates"; "glyphBBoxes"; "ligatures"]
  /\ NoDup (dict_keys doc)
  /\ dict_get doc "fontName" = Some (VStr fontName)
  /\ dict_get doc "fontVersion" = Some (VStr fontVersion).
Proof.
  destruct (@assemble_ok _ _ _ _ _ _ _ _ _ _ asdict_returns)
    as (a & al & b & l & _ & _ & _ & _ & ->).
  split; [|split; [|split]].
  - unfold document.
    destruct (truthy defaults), (dict_bool a), (dict_bool al), (dict_bool b),
      (dict_bool l); reflexivity.
  - rewrite document_keys.
    destruct (truthy defaults), (dict_bool a), (dict_bool al), (dict_bool b),
      (dict_bool l); simpl;
      repeat (constructor; [simpl; intuition discriminate|]); constructor.
  - unfold document.
    destruct (truthy defaults), (dict_bool a), (dict_bool al), (dict_bool b),
      (dict_bool l); reflexivity.
  - unfold document.
    destruct (truthy defaults), (dict_bool a), (dict_bool al), (dict_bool b),
      (dict_bool l); reflexivity.
Qed.


End DocumentKeys.

(** X6. The document [asdict] returns lists its keys in the fixed order
    fontName, fontVersion, engravingDefaults, glyphsWithAnchors,
    glyphsWithAlternates, glyphBBoxes, ligatures (those it has), none of
    them twice, and always starts with the font's name and version.  This
    holds for the three implementations. *)
Theorem asdict_key_order (table : dict string) :
  (forall (self : ffsmufl.SmuflFont) doc,
      ffsmufl.asdict table self = Ok doc ->
      well_ordered_document doc (fontname (ffsmufl.font self))
        (version (ffsmufl.font self)))
  /\ (forall (self : ff_smufl_metadata.SmuflMetadata) doc,
      ff_smufl_metadata.asdict table self = Ok doc ->
      well_ordered_document doc (fontname (ff_smufl_metadata.font self))
        (version (ff_smufl_metadata.font self)))
  /\ (forall (self : ff_smufl.SmuflMetadata) doc,
      ff_smufl.asdict table self = Ok doc ->
      well_ordered_document doc
        (fontname (ff_smufl.font (ff_smufl.metadata_font self)))
        (version (ff_smufl.font (ff_smufl.metadata_font self)))).
Proof.
  split; [|split]; intros self doc Hdoc;
    exact (@assemble_key_order _ _ _ _ _ _ _ _ _ _ Hdoc).
Qed.

Lemma asdict_key_order_witness :
  well_ordered_document
    [("fontName", VStr "Sebastian"); ("fontVersion", VStr "1.0");
     ("glyphsWithAnchors",
      VDict [("noteheadBlack",
              VDict [("stemUpSE",
                      VTuple [VFloat (4 # 25); VFloat (2 # 5)])])]);
     ("glyphBBoxes",
      VDict [("noteheadBlack",
              bounding_box_record round_div_250 Samples.notehead)])]
    "Sebastian" "1.0".
Proof.
  apply (proj1 (asdict_key_order Samples.glyphnames) Samples.writable_font).
  vm_compute. reflexivity.
Defined.



(** ** The table read from glyphnames.json *)

Section Invert.

Let body (codepoint_to_name : dict string) (item : string * dict string)
  : result (dict string) :=
  let (name, data) := item in
  match dict_get data "codepoint" with
  | Some codepoint => Ok (dict_set codepoint_to_name codepoint name)
  | None => Raise KeyError
  end.

Lemma invert_step d name data d' :
  body d (name, data) = Ok d' ->
  exists codepoint,
    dict_get data "codepoint" = Some codepoint
    /\ d' = dict_set d codepoint name.
Proof.
  unfold body. destruct (dict_get data "codepoint") as [cp|];
    [|discriminate].
  intros [= <-]. eauto.
Qed.

(** Every entry of the table comes from a record of the file. *)
Lemma invert_sound glyphnames d table codepoint name :
  for_each glyphnames body d = Ok table ->
  dict_get table codepoint = Some name ->
  dict_get d codepoint = Some name
  \/ exists data, In (name, data) glyphnames
       /\ dict_get data "codepoint" = Some codepoint.
Proof.
  revert d. induction glyphnames as [|[n0 data0] gs IH]; intros d Hrun Hget.
  - injection Hrun as <-. now left.
  - apply for_each_cons_ok in Hrun as (d1 & Hstep & Hrest).
    apply invert_step in Hstep as (cp0 & Hcp0 & ->).
    destruct (IH _ Hrest Hget) as [H|(data & Hin & Hcp)].
    + destruct (string_dec cp0 codepoint) as [->|Hne].
      * rewrite dict_get_set_same in H. injection H as <-.
        right. exists data0. split; [now left | assumption].
      * rewrite dict_get_set_other in H by assumption. now left.
    + right. exists data. split; [now right | assumption].
Qed.

(** The name under a codepoint is that of the records with this
    codepoint when they agree on it. *)
Lemma invert_complete glyphnames d table codepoint name :
  for_each glyphnames body d = Ok table ->
  (forall name' data', In (name', data') glyphnames ->
     dict_get data' "codepoint" = Some codepoint -> name' = name) ->
  (dict_get d codepoint = Some name
   \/ exists data, In (name, data) glyphnames
        /\ dict_get data "codepoint" = Some codepoint) ->
  dict_get table codepoint = Some name.
Proof.
  revert d. induction glyphnames as [|[n0 data0] gs IH];
    intros d Hrun Hagree Hex.
  - injection Hrun as <-. destruct Hex as [H|(data & [] & _)]. exact H.
  - apply for_each_cons_ok in Hrun as (d1 & Hstep & Hrest).
    apply invert_step in Hstep as (cp0 & Hcp0 & ->).
    apply (IH _ Hrest).
    + intros name' data' Hin. apply Hagree. now right.
    + destruct (string_dec cp0 codepoint) as [->|Hne].
      * left. rewrite dict_get_set_same. f_equal.
        apply (Hagree n0 data0); [now left | assumption].
      * rewrite dict_get_set_other by assumption.
        destruct Hex as [H|(data & [[= -> ->]|Hin] & Hcp)]; auto.
        -- congruence.
        -- right. eauto.
Qed.

(** With distinct glyph names no name ends up under two codepoints. *)
Lemma invert_injective glyphnames d table :
  NoDup (dict_keys glyphnames) ->
  (forall codepoint name, dict_get d codepoint = Some name ->
     ~ In name (dict_keys glyphnames)) ->
  injective_table d ->
  for_each glyphnames body d = Ok table ->
  injective_table table.
Proof.
  revert d. induction glyphnames as [|[n0 data0] gs IH];
    intros d Hnd Hfresh Hinj Hrun.
  - now injection Hrun as <-.
  - apply for_each_cons_ok in Hrun as (d1 & Hstep & Hrest).
    apply invert_step in Hstep as (cp0 & Hcp0 & ->).
    simpl in Hnd. inversion Hnd as [|? ? Hn0 Hnd']; subst.
    apply (IH _ Hnd' ) in Hrest; auto.
    + intros cp name Hget Hin.
      destruct (string_dec cp0 cp) as [->|Hne].
      * rewrite dict_get_set_same in Hget. injection Hget as <-.
        contradiction.
      * rewrite dict_get_set_other in Hget by assumption.
        apply (Hfresh _ _ Hget). now right.
    + intros c1 c2 name H1 H2.
      destruct (string_dec cp0 c1) as [E1|N1];
        destruct (string_dec cp0 c2) as [E2|N2]; [congruence| | |].
      * subst c1. rewrite dict_get_set_same in H1. injection H1 as <-.
        rewrite dict_get_set_other in H2 by assumption.
        exfalso. apply (Hfresh _ _ H2). now left.
      * subst c2. rewrite dict_get_set_same in H2. injection H2 as <-.
        rewrite dict_get_set_other in H1 by assumption.
        exfalso. apply (Hfresh _ _ H1). now left.
      * rewrite dict_get_set_other in H1, H2 by assumption. eauto.
Qed.


End Invert.

(** X8. The table built from glyphnames.json maps a codepoint to the
    glyph name whose record has it: every entry of the table comes from a
    record of the file, and a codepoint that only one glyph name carries is
    mapped back to that name. *)
Theorem invert_glyphnames_lookup (glyphnames : dict (dict string))
  (table : dict string) :
  invert_glyphnames glyphnames = Ok table ->
  (forall codepoint name,
      dict_get table codepoint = Some name ->
      exists data, In (name, data) glyphnames
        /\ dict_get data "codepoint" = Some codepoint)
  /\ (forall name data codepoint,
      In (name, data) glyphnames ->
      dict_get data "codepoint" = Some codepoint ->
      (forall name' data', In (name', data') glyphnames ->
         dict_get data' "codepoint" = Some codepoint -> name' = name) ->
      dict_get table codepoint = Some name).
Proof.
  intros Hrun. split.
  - intros cp name Hget.
    destruct (invert_sound _ _ _ Hrun Hget) as [H|H]; [discriminate | exact H].
  - intros name data cp Hin Hcp Hagree.
    apply (invert_complete _ _ Hrun Hagree). right. eauto.
Qed.

Lemma invert_glyphnames_lookup_witness :
  exists data, In ("reversedBrace", data) Fixtures.glyphnames_json
    /\ dict_get data "codepoint" = Some "U+E001".
Proof.
  apply (proj1 (invert_glyphnames_lookup Fixtures.glyphnames_json eq_refl)).
  reflexivity.
Defined.

(** X9. glyphnames.json is a JSON object, so its glyph names are distinct;
    then no two codepoints of the table share a name, and two glyphs with
    different non-negative codepoints never get the same canonical name
    from the table. *)
Theorem canonical_names_distinct (glyphnames : dict (dict string))
  (table : dict string) :
  NoDup (dict_keys glyphnames) ->
  invert_glyphnames glyphnames = Ok table ->
  injective_table table
  /\ (forall u1 u2 f1 f2 name,
        0 <= u1 -> 0 <= u2 ->
        ffsmufl.canonical_glyphname table u1 f1 = Ok name ->
        ffsmufl.canonical_glyphname table u2 f2 = Ok name ->
        u1 = u2).
Proof.
  intros Hnd Hrun.
  assert (injective_table table) as Hinj.
  { apply (@invert_injective glyphnames [] table Hnd); auto.
    - discriminate.
    - intros c1 c2 name H. discriminate. }
  split; [exact Hinj|].
  intros u1 u2 f1 f2 name H1 H2.
  unfold ffsmufl.canonical_glyphname.
  destruct (dict_get table (ffsmufl.format_codepoint u1)) as [n1|] eqn:E1;
    [|destruct f1; discriminate].
  destruct (dict_get table (ffsmufl.format_codepoint u2)) as [n2|] eqn:E2;
    [|destruct f2; discriminate].
  intros [= ->] [= ->].
  apply format_codepoint_eq_inv; auto. exact (Hinj _ _ _ E1 E2).
Qed.

Lemma canonical_names_distinct_witness :
  injective_table
    [("U+E000", "brace"); ("U+E001", "reversedBrace"); ("U+E002", "bracket")].
Proof.
  assert (NoDup (dict_keys Fixtures.glyphnames_json)) as Hnd.
  { repeat (constructor; [simpl; intuition discriminate|]). constructor. }
  exact (proj1 (@canonical_names_distinct Fixtures.glyphnames_json _
                  Hnd eq_refl)).
Defined.



(** X11. The class body of ffsmufl.py takes the table from the first file
    that can be read and inverted, silently skipping every file before it
    that cannot; when no file can, the loop ends without a table (and
    without the announced exit). *)
Theorem load_codepoint_to_name_first (bad rest : list (result (dict (dict string))))
  (good : result (dict (dict string))) (table : dict string) :
  (forall c, In c bad -> forall t, load_candidate c <> Ok t) ->
  load_candidate good = Ok table ->
  load_codepoint_to_name (bad ++ good :: rest)%list = Some table
  /\ load_codepoint_to_name bad = None.
Proof.
  intros Hbad Hgood.
  assert (forall tail,
            load_codepoint_to_name (bad ++ tail)%list
            = load_codepoint_to_name tail) as Hskip.
  { intros tail. induction bad as [|c cs IH]; simpl; auto.
    fold (load_candidate c).
    destruct (load_candidate c) as [t|e] eqn:E.
    - exfalso. apply (Hbad c (or_introl eq_refl) t E).
    - apply IH. intros c' Hc'. apply Hbad. now right. }
  split.
  - rewrite Hskip. simpl. fold (load_candidate good). now rewrite Hgood.
  - rewrite <- (app_nil_r bad). now rewrite Hskip.
Qed.

Lemma load_codepoint_to_name_first_witness :
  load_codepoint_to_name
    ([Raise OSError; Ok Fixtures.broken_json]
     ++ Ok Fixtures.glyphnames_json :: [])%list
  = Some [("U+E000", "brace"); ("U+E001", "reversedBrace");
          ("U+E002", "bracket")].
Proof.
  apply (load_codepoint_to_name_first
           [Raise OSError; Ok Fixtures.broken_json] []
           (Ok Fixtures.glyphnames_json)).
  - intros c [<-|[<-|[]]] t; discriminate.
  - reflexivity.
Defined.

(** ** The tables of ff_smufl_metadata.py, glyph by glyph *)

Lemma smufl_name_resolved table g :
  ff_smufl_metadata.canonical_name table g = Ok (smufl_name table g).
Proof.
  unfold ff_smufl_metadata.canonical_name,
    ff_smufl_metadata.smufl_canonical_name, smufl_name.
  now destruct (dict_get table _).
Qed.

(** A glyph of a list with distinct names shares its name with no other
    glyph of the list. *)
Lemma distinct_names_split table chars g :
  NoDup (map (smufl_name table) chars) ->
  In g chars ->
  exists pre post,
    chars = (pre ++ g :: post)%list
    /\ forall g', In g' (pre ++ post)%list ->
         ff_smufl_metadata.canonical_name table g'
         <> ff_smufl_metadata.canonical_name table g.
Proof.
  intros Hnd Hin. apply in_split in Hin as (pre & post & ->).
  exists pre, post. split; [reflexivity|].
  intros g' Hg'. rewrite !smufl_name_resolved. intros [= E].
  rewrite map_app in Hnd. simpl in Hnd.
  apply NoDup_remove_2 in Hnd. apply Hnd.
  rewrite <- E, <- map_app. now apply in_map.
Qed.

Lemma bounding_boxes_keys table chars d t :
  NoDup (map (smufl_name table) chars) ->
  (forall g, In g chars -> ~ In (smufl_name table g) (dict_keys d)) ->
  for_each chars
    (bounding_boxes_body (ff_smufl_metadata.canonical_name table)
       ff_smufl_metadata.to_spaces) d = Ok t ->
  dict_keys t = (dict_keys d ++ map (smufl_name table) chars)%list.
Proof.
  revert d. induction chars as [|g gs IH]; intros d Hnd Hfresh Hrun.
  - injection Hrun as <-. simpl. now rewrite app_nil_r.
  - apply for_each_cons_ok in Hrun as (d1 & Hstep & Hrest).
    unfold bounding_boxes_body in Hstep.
    rewrite smufl_name_resolved in Hstep. injection Hstep as <-.
    inversion Hnd as [|? ? Hg Hnd']; subst.
    assert (forall g', In g' gs ->
              ~ In (smufl_name table g')
                  (dict_keys
                     (dict_set d (smufl_name table g)
                        (bounding_box_record ff_smufl_metadata.to_spaces g))))
      as Hfresh'.
    { intros g' Hg' Hin. apply dict_keys_set in Hin as [E|Hin].
      - apply Hg. rewrite <- E. now apply in_map.
      - apply (Hfresh g'); auto. now right. }
    rewrite (IH _ Hnd' Hfresh' Hrest).
    rewrite dict_keys_set_absent by (apply Hfresh; now left).
    now rewrite <- app_assoc.
Qed.

(** X12. In ff_smufl_metadata.py, for a font whose range glyphs resolve to
    distinct names, [glyphsWithAnchors] returns a table in which a glyph
    has an entry exactly when it has a recognized anchor; the keys of the
    entry are exactly the recognized names among the glyph's anchor
    points, and each is bound to the converted coordinates of an anchor
    point of that name. *)
Theorem glyphsWithAnchors_of_glyph (table : dict string)
  (self : ff_smufl_metadata.SmuflMetadata) :
  NoDup (map (smufl_name table) (ff_smufl_metadata.characters self)) ->
  exists t,
    ff_smufl_metadata.glyphsWithAnchors table self = Ok t
    /\ forall g, In g (ff_smufl_metadata.characters self) ->
         dict_get t (smufl_name table g) = anchors_entry g
         /\ (forall name,
               In name (dict_keys
                          (char_anchors smufl_anchor_names round_div_250 g))
               <-> in_tuple name smufl_anchor_names = true
                   /\ exists a, In a (anchorPoints g) /\ anchor_name a = name)
         /\ (forall name v,
               dict_get (char_anchors smufl_anchor_names round_div_250 g) name
               = Some v ->
               exists a, In a (anchorPoints g) /\ anchor_name a = name
                         /\ v = anchor_pair a).
Proof.
  intros Hnd. destruct (glyphsWithAnchors_total table self) as [t Ht].
  exists t. split; [exact Ht|]. intros g Hg.
  split; [|split].
  - destruct (@distinct_names_split table _ g Hnd Hg)
      as (pre & post & Hsplit & Hns).
    destruct (@glyphsWithAnchors_entry table self pre post g Hsplit Hns)
      as (t' & k & Ht' & Hk & Hget).
    rewrite Ht in Ht'. injection Ht' as <-.
    rewrite smufl_name_resolved in Hk. injection Hk as <-. exact Hget.
  - intros name. rewrite char_anchors_keys. split.
    + intros (a & Ha & Hn & Hr). eauto.
    + intros (Hr & a & Ha & Hn). eauto.
  - intros name v Hget.
    apply char_anchors_values in Hget as (a & Ha & Hn & _ & Hv). eauto.
Qed.

Lemma glyphsWithAnchors_of_glyph_witness :
  exists t,
    ff_smufl_metadata.glyphsWithAnchors Samples.glyphnames
      Samples.private_SmuflMetadata = Ok t
    /\ dict_get t "uniF3FF" = anchors_entry Samples.private_glyph.
Proof.
  assert (NoDup (map (smufl_name Samples.glyphnames)
                   (ff_smufl_metadata.characters
                      Samples.private_SmuflMetadata))) as Hnd.
  { repeat (constructor; [simpl; intuition discriminate|]). constructor. }
  destruct (glyphsWithAnchors_of_glyph Samples.glyphnames
              Samples.private_SmuflMetadata Hnd) as (t & Ht & Hall).
  exists t. split; [exact Ht|].
  exact (proj1 (Hall Samples.private_glyph
                  (or_intror (or_introl eq_refl)))).
Defined.

(** X13. In ff_smufl_metadata.py [glyphBBoxes] returns a table for every
    font.  When the range glyphs resolve to distinct names, its keys are
    those names in the order of the font's glyphs, one per glyph, and each
    is bound to the record of the glyph's own converted extents. *)
Theorem glyphBBoxes_of_font (table : dict string)
  (self : ff_smufl_metadata.SmuflMetadata) :
  exists t,
    ff_smufl_metadata.glyphBBoxes table self = Ok t
    /\ (NoDup (map (smufl_name table) (ff_smufl_metadata.characters self)) ->
        dict_keys t
        = map (smufl_name table) (ff_smufl_metadata.characters self)
        /\ forall g, In g (ff_smufl_metadata.characters self) ->
             dict_get t (smufl_name table g)
             = Some (bounding_box_record round_div_250 g)).
Proof.
  destruct (glyphBBoxes_total table self) as [t Ht].
  exists t. split; [exact Ht|]. intros Hnd. split.
  - unfold ff_smufl_metadata.glyphBBoxes, bounding_boxes in Ht.
    assert (forall g, In g (ff_smufl_metadata.characters self) ->
              ~ In (smufl_name table g) (dict_keys (@nil (string * value))))
      as Hfresh by (intros g _ []).
    exact (@bounding_boxes_keys table _ [] t Hnd Hfresh Ht).
  - intros g Hg.
    destruct (@distinct_names_split table _ g Hnd Hg)
      as (pre & post & Hsplit & Hns).
    destruct (@glyphBBoxes_entry table self pre post g Hsplit Hns)
      as (t' & k & Ht' & Hk & Hget).
    rewrite Ht in Ht'. injection Ht' as <-.
    rewrite smufl_name_resolved in Hk. injection Hk as <-. exact Hget.
Qed.

Lemma glyphBBoxes_of_font_witness :
  exists t,
    ff_smufl_metadata.glyphBBoxes Samples.glyphnames
      Samples.private_SmuflMetadata = Ok t
    /\ dict_keys t = ["noteheadBlack"; "uniF3FF"].
Proof.
  assert (NoDup (map (smufl_name Samples.glyphnames)
                   (ff_smufl_metadata.characters
                      Samples.private_SmuflMetadata))) as Hnd.
  { repeat (constructor; [simpl; intuition discriminate|]). constructor. }
  destruct (glyphBBoxes_of_font Samples.glyphnames
              Samples.private_SmuflMetadata) as (t & Ht & Hall).
  exists t. split; [exact Ht|]. exact (proj1 (Hall Hnd)).
Defined.

(** X14. In ff_smufl_metadata.py [ligatures] returns a table for every
    font.  When the range glyphs resolve to distinct names, a glyph has an
    entry exactly when it has a ['Ligature'] rule, and the entry holds the
    glyph's codepoint and the components of its last such rule: earlier
    rules leave no trace. *)
Theorem ligatures_of_font (table : dict string)
  (self : ff_smufl_metadata.SmuflMetadata) :
  exists t,
    ff_smufl_metadata.ligatures table self = Ok t
    /\ (NoDup (map (smufl_name table) (ff_smufl_metadata.characters self)) ->
        forall g, In g (ff_smufl_metadata.characters self) ->
          dict_get t (smufl_name table g) = ligatures_entry_of g).
Proof.
  destruct (ligatures_total table self) as [t Ht].
  exists t. split; [exact Ht|]. intros Hnd g Hg.
  destruct (@distinct_names_split table _ g Hnd Hg)
      as (pre & post & Hsplit & Hns).
  destruct (@ligatures_entry table self pre post g Hsplit Hns)
    as (t' & k & Ht' & Hk & Hget).
  rewrite Ht in Ht'. injection Ht' as <-.
  rewrite smufl_name_resolved in Hk. injection Hk as <-. exact Hget.
Qed.

Lemma ligatures_of_font_witness :
  exists t,
    ff_smufl_metadata.ligatures Samples.glyphnames
      Samples.private_SmuflMetadata = Ok t
    /\ dict_get t "uniF3FF" = ligatures_entry_of Samples.private_glyph.
Proof.
  assert (NoDup (map (smufl_name Samples.glyphnames)
                   (ff_smufl_metadata.characters
                      Samples.private_SmuflMetadata))) as Hnd.
  { repeat (constructor; [simpl; intuition discriminate|]). constructor. }
  destruct (ligatures_of_font Samples.glyphnames
              Samples.private_SmuflMetadata) as (t & Ht & Hall).
  exists t. split; [exact Ht|].
  exact (Hall Hnd Samples.private_glyph (or_intror (or_introl eq_refl))).
Defined.

(** ** Exceptions *)

Lemma for_each_raise A S (xs : list A) (body : S -> A -> result S) s e :
  for_each xs body s = Raise e ->
  exists s0 x, In x xs /\ body s0 x = Raise e.
Proof.
  revert s. induction xs as [|x xs IH]; intros s; simpl; [discriminate|].
  destruct (body s x) as [s1|e1] eqn:E; simpl.
  - intros H. destruct (IH _ H) as (s0 & y & Hy & Hb).
    exists s0, y. split; [now right | exact Hb].
  - intros [= <-]. exists s, x. split; [now left | exact E].
Qed.

Section RaisedBy.

Variable valid_anchor_names : list string.
Variable codepoint_of : glyph -> string.
Variable canonical_name : glyph -> result string.
Variable to_spaces : Q -> Q.
Variable font_getitem : string -> result glyph.
Variable P : exn -> Prop.

Hypothesis canonical_name_raises :
  forall g e, canonical_name g = Raise e -> P e.
Hypothesis font_getitem_raises :
  forall name e, font_getitem name = Raise e -> P e.

Lemma char_alternates_raises g e :
  char_alternates codepoint_of canonical_name font_getitem g = Raise e ->
  P e.
Proof.
  intros H. apply for_each_raise in H as (acc & tbl & _ & H).
  apply for_each_raise in H as (acc' & name & _ & H).
  destruct (font_getitem name) as [sc|e1] eqn:E1; simpl in H.
  - destruct (canonical_name sc) as [n|e2] eqn:E2; simpl in H;
      [discriminate|]. injection H as <-. eauto.
  - injection H as <-. eauto.
Qed.

(** An exception of [asdict] is one of the name lookup or of [font[name]]. *)
Lemma assemble_raises fontName fontVersion defaults chars e :
  assemble valid_anchor_names codepoint_of canonical_name to_spaces
    fontName fontVersion defaults font_getitem chars = Raise e ->
  P e.
Proof.
  rewrite assemble_document. cbv zeta.
  destruct (anchors _ _ _ _) as [a|e1] eqn:Ea; simpl.
  - destruct (alternates _ _ _ _) as [al|e2] eqn:Eal; simpl.
    + destruct (bounding_boxes _ _ _) as [b|e3] eqn:Eb; simpl.
      * destruct (ligatures _ _ _) as [l|e4] eqn:El; simpl; [discriminate|].
        intros [= <-]. apply for_each_raise in El as (d & g & _ & H).
        unfold ligatures_body in H.
        destruct (canonical_name g) eqn:E; [discriminate|].
        injection H as <-. eauto.
      * intros [= <-]. apply for_each_raise in Eb as (d & g & _ & H).
        unfold bounding_boxes_body in H.
        destruct (canonical_name g) eqn:E; [discriminate|].
        injection H as <-. eauto.
    + intros [= <-]. apply for_each_raise in Eal as (d & g & _ & H).
      unfold alternates_body in H.
      destruct (char_alternates _ _ _ g) as [rs|e3] eqn:Er; simpl in H.
      * destruct rs; [discriminate|].
        destruct (canonical_name g) eqn:E; [discriminate|].
        injection H as <-. eauto.
      * injection H as <-. eapply char_alternates_raises; eauto.
  - intros [= <-]. apply for_each_raise in Ea as (d & g & _ & H).
    unfold anchors_body in H. destruct (dict_bool _); [|discriminate].
    destruct (canonical_name g) eqn:E; [discriminate|].
    injection H as <-. eauto.
Qed.

End RaisedBy.

Lemma ffsmufl_canonical_name_raises table g e :
  ffsmufl.canonical_name table g = Raise e -> e = NameError.
Proof.
  destruct (canonical_name_ok_or_NameError table g) as [[n ->]| ->];
    [discriminate | now intros [= <-]].
Qed.

Lemma getitem_raises f name e : getitem f name = Raise e -> e = TypeError.
Proof.
  unfold getitem. destruct (find _ _); [discriminate | now intros [= <-]].
Qed.





(** X17. Whenever [asdict] of ffsmufl.py returns a document,
    [asdict] of ff_smufl_metadata.py returns the same document for the same
    font and engraving defaults, and [asdict] of ff-smufl.py has the same
    outcome as that of ffsmufl.py in every case. *)
Theorem asdict_agreement (table : dict string) (self : ffsmufl.SmuflFont) :
  (forall doc,
      ffsmufl.asdict table self = Ok doc ->
      ff_smufl_metadata.asdict table
        {| ff_smufl_metadata.font := ffsmufl.font self;
           ff_smufl_metadata.engravingDefaults :=
             ffsmufl._engraving_defaults self |}
      = Ok doc)
  /\ ff_smufl.asdict table
       {| ff_smufl.metadata_font :=
            {| ff_smufl.font := ffsmufl.font self;
               ff_smufl.read_only := ffsmufl.read_only self;
               ff_smufl._engraving_defaults :=
                 ffsmufl._engraving_defaults self |};
          ff_smufl.engraving_defaults := ffsmufl._engraving_defaults self |}
     = ffsmufl.asdict table self.
Proof.
  split.
  - intros doc. apply ffsmufl_asdict_refines.
  - apply ff_smufl_asdict_same.
Qed.

Lemma asdict_agreement_witness :
  ff_smufl_metadata.asdict Samples.glyphnames
    {| ff_smufl_metadata.font := ffsmufl.font Samples.writable_font;
       ff_smufl_metadata.engravingDefaults :=
         ffsmufl._engraving_defaults Samples.writable_font |}
  = ffsmufl.asdict Samples.glyphnames Samples.writable_font.
Proof.
  apply (proj1 (asdict_agreement Samples.glyphnames Samples.writable_font)).
  reflexivity.
Defined.

(** ** [rename_glyphs] *)

Section Rename.

Variable table : dict string.


Lemma rename_loop_miss pre g post :
  Forall (nameable table) pre ->
  in_smufl_range g = true ->
  dict_get table (ffsmufl.format_codepoint (unicode g)) = None ->
  ffsmufl_facade.rename_loop table (pre ++ g :: post)%list
  = (Raise NameError, (map (renamed table) pre ++ g :: post)%list).
Proof.
  intros Hpre Hr Hmiss. induction pre as [|p pre IH].
  - simpl. unfold ffsmufl.canonical_glyphname. now rewrite Hr, Hmiss.
  - inversion Hpre as [|? ? Hp Hpre']; subst.
    simpl. unfold renamed at 1, ffsmufl.canonical_glyphname.
    destruct (in_smufl_range p) eqn:Ep.
    + destruct (dict_get table (ffsmufl.format_codepoint (unicode p)))
        as [name|] eqn:E.
      * now rewrite (IH Hpre').
      * exfalso. now apply Hp.
    + now rewrite (IH Hpre').
Qed.








End Rename.



(** X19. When the table lacks the codepoint of a glyph of the range,
    [rename_glyphs] of ffsmufl.py raises [NameError] at the first such
    glyph and leaves the font half renamed: the glyphs before it carry
    their new names, that glyph and all after it are untouched. *)
Theorem rename_glyphs_partial (table : dict string)
  (self : ffsmufl.SmuflFont) (pre post : list glyph) (g : glyph) :
  glyphs (ffsmufl.font self) = (pre ++ g :: post)%list ->
  Forall (nameable table) pre ->
  in_smufl_range g = true ->
  dict_get table (ffsmufl.format_codepoint (unicode g)) = None ->
  ffsmufl_facade.rename_glyphs table self
  = (Raise NameError,
     with_glyphs self (map (renamed table) pre ++ g :: post)%list).
Proof.
  intros Hsplit Hpre Hr Hmiss. unfold ffsmufl_facade.rename_glyphs.
  now rewrite Hsplit, (@rename_loop_miss table pre g post Hpre Hr Hmiss).
Qed.

Lemma rename_glyphs_partial_witness :
  ffsmufl_facade.rename_glyphs Samples.glyphnames Samples.private_SmuflFont
  = (Raise NameError,
     with_glyphs Samples.private_SmuflFont
       [set_glyphname Samples.notehead "noteheadBlack";
        Samples.private_glyph]).
Proof.
  apply (@rename_glyphs_partial Samples.glyphnames Samples.private_SmuflFont
           [Samples.notehead] [] Samples.private_glyph eq_refl).
  - repeat constructor. intros _. discriminate.
  - reflexivity.
  - reflexivity.
Defined.



(** ** Engraving defaults *)

Lemma constructed_defaults self :
  ffsmufl_facade.constructed self ->
  ffsmufl._engraving_defaults self = VNone
  \/ exists entries, ffsmufl._engraving_defaults self = VDict entries.
Proof.
  assert (forall s d s',
            ffsmufl.set_engraving_defaults s d = Ok s' ->
            ffsmufl._engraving_defaults s' = VNone
            \/ exists entries, ffsmufl._engraving_defaults s' = VDict entries)
    as Hset.
  { intros s d s'. unfold ffsmufl.set_engraving_defaults.
    destruct d; simpl; try discriminate; intros [= <-]; simpl; eauto. }
  intros H. destruct H as [opened mode d self Hinit|self d self' _ Hs].
  - unfold ffsmufl.__init__ in Hinit. eapply Hset; eauto.
  - eapply Hset; eauto.
Qed.

(** X21. The [engraving_defaults] setter of ffsmufl.py accepts [None] and
    dictionaries and raises [TypeError] for anything else, before it
    assigns.  Hence a [SmuflFont] made by [__init__] and changed through
    the setter always holds [None] or a dictionary, and the
    [engravingDefaults] entry of its metadata, when there is one, is that
    dictionary and is not empty. *)
Theorem engraving_defaults_invariant (table : dict string)
  (self : ffsmufl.SmuflFont) :
  ffsmufl_facade.constructed self ->
  (ffsmufl._engraving_defaults self = VNone
   \/ exists entries, ffsmufl._engraving_defaults self = VDict entries)
  /\ (forall defaults,
        (is_None defaults = true \/ isinstance_dict defaults = true ->
         exists self',
           ffsmufl.set_engraving_defaults self defaults = Ok self'
           /\ ffsmufl.font self' = ffsmufl.font self
           /\ ffsmufl.read_only self' = ffsmufl.read_only self
           /\ ffsmufl._engraving_defaults self' = defaults
           /\ ffsmufl_facade.constructed self')
        /\ (is_None defaults = false -> isinstance_dict defaults = false ->
            ffsmufl.set_engraving_defaults self defaults = Raise TypeError))
  /\ (forall doc v,
        ffsmufl.generate_metadata table self = Ok doc ->
        dict_get doc "engravingDefaults" = Some v ->
        exists entries,
          v = VDict entries /\ entries <> []
          /\ ffsmufl._engraving_defaults self = v).
Proof.
  intros Hc. split; [now apply constructed_defaults|]. split.
  - intros defaults. split.
    + intros Hok.
      assert (negb (is_None defaults) && negb (isinstance_dict defaults)
              = false) as Hg.
      { destruct Hok as [-> | ->]; [reflexivity | apply andb_false_r]. }
      eexists. split; [|split; [|split; [|split]]].
      * unfold ffsmufl.set_engraving_defaults. rewrite Hg. reflexivity.
      * reflexivity.
      * reflexivity.
      * reflexivity.
      * eapply ffsmufl_facade.constructed_set; [exact Hc|].
        unfold ffsmufl.set_engraving_defaults. rewrite Hg. reflexivity.
    + intros Hn Hd. unfold ffsmufl.set_engraving_defaults.
      now rewrite Hn, Hd.
  - intros doc v Hdoc Hget.
    unfold ffsmufl.generate_metadata in Hdoc.
    destruct (@assemble_omits_empty _ _ _ _ _ _ _ _ _ _ Hdoc)
      as (_ & Hd & _).
    apply Hd in Hget as [-> Ht]. unfold ffsmufl.engraving_defaults in *.
    destruct (constructed_defaults Hc) as [E|[entries E]]; rewrite E in *.
    + discriminate.
    + exists entries. split; [reflexivity|]. split; [|reflexivity].
      destruct entries; [discriminate | discriminate].
Qed.

Lemma engraving_defaults_invariant_witness :
  ffsmufl_facade.constructed Samples.read_only_font
  /\ ffsmufl.set_engraving_defaults Samples.read_only_font (VList [VInt 1])
     = Raise TypeError.
Proof.
  assert (ffsmufl_facade.constructed Samples.read_only_font) as Hc.
  { apply (ffsmufl_facade.constructed_init Samples.notehead_font "r" VNone).
    reflexivity. }
  split; [exact Hc|].
  exact (proj2 (proj1 (proj2 (@engraving_defaults_invariant
                                Samples.glyphnames _ Hc)) (VList [VInt 1]))
           eq_refl eq_refl).
Defined.



(** ** Writing the metadata file and exporting the font *)

Section WriteJsonFacts.

Variable can_open : string -> bool.
Variable json_dump : dict value -> value -> dict value -> result unit * string.

(** Only the target is ever written. *)
Lemma write_json_frame target metadata indent kwargs files path :
  path <> target ->
  dict_get (snd (write_json can_open json_dump target metadata indent kwargs
                   files)) path
  = dict_get files path.
Proof.
  intros Hne. unfold write_json.
  destruct (can_open target); [|reflexivity].
  destruct metadata as [doc|e]; simpl.
  - destruct (json_dump doc indent kwargs) as [r text]. simpl.
    rewrite !dict_get_set_other; auto.
  - rewrite dict_get_set_other; auto.
Qed.

Lemma write_json_raise target e indent kwargs files :
  can_open target = true ->
  write_json can_open json_dump target (Raise e) indent kwargs files
  = (Raise e, dict_set files target "").
Proof. intros H. unfold write_json. now rewrite H. Qed.

Lemma write_json_ok target doc indent kwargs files :
  can_open target = true ->
  write_json can_open json_dump target (Ok doc) indent kwargs files
  = (fst (json_dump doc indent kwargs),
     dict_set files target (snd (json_dump doc indent kwargs))).
Proof.
  intros H. unfold write_json. rewrite H.
  destruct (json_dump doc indent kwargs). simpl. now rewrite dict_set_set.
Qed.

End WriteJsonFacts.

(** [asdict] of ffsmufl.py raises as soon as one glyph of the range has a
    codepoint the table does not name. *)
Lemma ffsmufl_asdict_unnamed table self g :
  In g (ffsmufl.__iter__ self) ->
  dict_get table (ffsmufl.format_codepoint (unicode g)) = None ->
  exists e, ffsmufl.asdict table self = Raise e
            /\ (e = NameError \/ e = TypeError).
Proof.
  intros Hg Hmiss.
  destruct (ffsmufl.asdict table self) as [doc|e] eqn:E.
  - exfalso. destruct (@assemble_ok _ _ _ _ _ _ _ _ _ _ E)
      as (a & al & b & l & _ & _ & Hb & _).
    pose proof (bounding_boxes_miss table self g Hg Hmiss) as Hr.
    unfold ffsmufl.bounding_boxes in Hr. rewrite Hr in Hb. discriminate.
  - exists e. split; [reflexivity|].
    refine (@assemble_raises _ _ _ _ _
              (fun e => e = NameError \/ e = TypeError) _ _ _ _ _ _ e E).
    + intros c e' Hc. left. now apply ffsmufl_canonical_name_raises in Hc.
    + intros name e' Hn. right. now apply getitem_raises in Hn.
Qed.

(** X23. [export_metadata] of ffsmufl.py opens, and so empties, the target
    file before the metadata is computed.  For a font with a glyph of the
    range whose codepoint the table does not name, the call raises and
    leaves the target file empty, whatever it held before. *)
Theorem export_metadata_unnamed_glyph (table : dict string)
  (can_open : string -> bool)
  (json_dump : dict value -> value -> dict value -> result unit * string)
  (self : ffsmufl.SmuflFont) (filename : option string)
  (indent : value) (kwargs : dict value) (files : dict string) (g : glyph) :
  let target :=
    path_or filename (lower (fontname (ffsmufl.font self)) ++ ".json") in
  In g (ffsmufl.__iter__ self) ->
  dict_get table (ffsmufl.format_codepoint (unicode g)) = None ->
  can_open target = true ->
  exists e,
    (e = NameError \/ e = TypeError)
    /\ ffsmufl_facade.export_metadata table can_open json_dump self filename
         indent kwargs files
       = (Raise e, dict_set files target "")
    /\ dict_get (dict_set files target "") target = Some "".
Proof.
  intros target Hg Hmiss Hopen.
  destruct (ffsmufl_asdict_unnamed table self g Hg Hmiss) as (e & He & Hcls).
  exists e. split; [exact Hcls|]. split.
  - unfold ffsmufl_facade.export_metadata, ffsmufl.generate_metadata.
    fold target. rewrite He. now apply write_json_raise.
  - apply dict_get_set_same.
Qed.

Lemma export_metadata_unnamed_glyph_witness :
  exists e,
    (e = NameError \/ e = TypeError)
    /\ ffsmufl_facade.export_metadata Samples.glyphnames Fixtures.always_open
         Fixtures.constant_dump Samples.private_SmuflFont None (VInt 2) []
         Fixtures_io.old_files
       = (Raise e, dict_set Fixtures_io.old_files "sebastian.json" "")
    /\ dict_get (dict_set Fixtures_io.old_files "sebastian.json" "")
         "sebastian.json" = Some "".
Proof.
  exact (@export_metadata_unnamed_glyph Samples.glyphnames
           Fixtures.always_open Fixtures.constant_dump
           Samples.private_SmuflFont None (VInt 2) []
           Fixtures_io.old_files Samples.private_glyph
           (or_intror (or_introl eq_refl)) eq_refl eq_refl).
Defined.

(** X24. [export_metadata] and [dump_json] never change a file other than
    their target.  When the target cannot be opened they raise [OSError]
    and change nothing; when the metadata is computed, the target ends up
    holding exactly the text [json.dump] wrote, and the outcome is that of
    [json.dump]. *)
Theorem export_metadata_writes_target (table : dict string)
  (can_open : string -> bool)
  (json_dump : dict value -> value -> dict value -> result unit * string)
  (self : ffsmufl.SmuflFont) (meta : ff_smufl_metadata.SmuflMetadata)
  (filename : option string) (indent : value) (kwargs : dict value)
  (files : dict string) :
  let target :=
    path_or filename (lower (fontname (ffsmufl.font self)) ++ ".json") in
  let target' :=
    path_or filename (fontname (ff_smufl_metadata.font meta) ++ ".json") in
  (forall path, path <> target ->
     dict_get (snd (ffsmufl_facade.export_metadata table can_open json_dump
                      self filename indent kwargs files)) path
     = dict_get files path)
  /\ (forall path, path <> target' ->
     dict_get (snd (ff_smufl_metadata_io.dump_json table can_open json_dump
                      meta filename indent kwargs files)) path
     = dict_get files path)
  /\ (can_open target = false ->
      ffsmufl_facade.export_metadata table can_open json_dump self filename
        indent kwargs files = (Raise OSError, files))
  /\ (can_open target = true ->
      forall doc, ffsmufl.generate_metadata table self = Ok doc ->
      ffsmufl_facade.export_metadata table can_open json_dump self filename
        indent kwargs files
      = (fst (json_dump doc indent kwargs),
         dict_set files target (snd (json_dump doc indent kwargs))))
  /\ (can_open target' = true ->
      forall doc, ff_smufl_metadata.asdict table meta = Ok doc ->
      ff_smufl_metadata_io.dump_json table can_open json_dump meta filename
        indent kwargs files
      = (fst (json_dump doc indent kwargs),
         dict_set files target' (snd (json_dump doc indent kwargs)))).
Proof.
  intros target target'.
  unfold ffsmufl_facade.export_metadata, ff_smufl_metadata_io.dump_json.
  fold target target'.
  split; [|split; [|split; [|split]]].
  - intros path Hne. now apply write_json_frame.
  - intros path Hne. now apply write_json_frame.
  - intros Hc. unfold write_json. now rewrite Hc.
  - intros Hc doc ->. now apply write_json_ok.
  - intros Hc doc ->. now apply write_json_ok.
Qed.

Lemma export_metadata_writes_target_witness :
  ffsmufl_facade.export_metadata Samples.glyphnames Fixtures.always_open
    Fixtures.constant_dump Samples.writable_font None (VInt 2) []
    Fixtures_io.old_files
  = (Ok tt, [("sebastian.json", "{}"); ("sebastian.otf", "OTTO")]).
Proof.
  rewrite (proj1 (proj2 (proj2 (proj2
             (@export_metadata_writes_target Samples.glyphnames
                Fixtures.always_open Fixtures.constant_dump
                Samples.writable_font Samples.notehead_SmuflMetadata
                None (VInt 2) [] Fixtures_io.old_files)))) eq_refl
             _ eq_refl).
  reflexivity.
Defined.








